(** * Chess analytics desktop: engine pool and move-analysis pipeline

    Shallow embedding of
      - [backend/src/services/analyzer.ts]   (move classification),
      - [backend/src/routes/analysis.ts]     (centipawn loss per ply),
      - [backend/src/services/stockfish.ts]  (engine pool, UCI output
        parsing, game replay),
    followed by the properties established about them.

    Numbers.  Every number that reaches the arithmetic below is produced by
    [parseInt] on a run of decimal digits, or by integer arithmetic on such
    values, so JavaScript numbers are modelled by [Z].

    Strings.  Engine output, FEN strings and UCI move tokens are ASCII; a
    JavaScript string is modelled by [string] (a sequence of 8-bit
    characters). *)

From Stdlib Require Import ZArith Lia Bool Ascii String.
From stdpp Require Import base option list strings.

Local Open Scope Z_scope.

(* ===================================================================== *)
(** ** JavaScript string primitives used by the sources *)
(* ===================================================================== *)

Module JS.

Local Open Scope char_scope.

Definition isUpper (c : ascii) : bool :=
  (65 <=? nat_of_ascii c)%nat && (nat_of_ascii c <=? 90)%nat.

Definition lowerChar (c : ascii) : ascii :=
  if isUpper c then ascii_of_nat (nat_of_ascii c + 32) else c.

(** [String.prototype.toLowerCase] on ASCII text. *)
Fixpoint toLowerCase (s : string) : string :=
  match s with
  | EmptyString => EmptyString
  | String c s' => String (lowerChar c) (toLowerCase s')
  end.

(** White space removed by [String.prototype.trim]: TAB, LF, VT, FF, CR
    and SPACE. *)
Definition isWhiteSpace (c : ascii) : bool :=
  let n := nat_of_ascii c in
  ((9 <=? n)%nat && (n <=? 13)%nat) || (n =? 32)%nat.

Fixpoint trimStart (s : string) : string :=
  match s with
  | EmptyString => EmptyString
  | String c s' => if isWhiteSpace c then trimStart s' else s
  end.

Fixpoint trimEnd (s : string) : string :=
  match s with
  | EmptyString => EmptyString
  | String c s' =>
      match trimEnd s' with
      | EmptyString => if isWhiteSpace c then EmptyString
                       else String c EmptyString
      | t => String c t
      end
  end.

Definition trim (s : string) : string := trimEnd (trimStart s).

(** [s.startsWith(p)]. *)
Definition startsWith (p s : string) : bool := String.prefix p s.

(** [s.split(sep)] for a one-character separator: never returns the empty
    array, keeps empty pieces. *)
Fixpoint split (sep : ascii) (s : string) : list string :=
  match s with
  | EmptyString => [EmptyString]
  | String c s' =>
      if Ascii.eqb c sep then EmptyString :: split sep s'
      else match split sep s' with
           | [] => [String c EmptyString]
           | piece :: rest => String c piece :: rest
           end
  end.

Definition isDigit (c : ascii) : bool :=
  (48 <=? nat_of_ascii c)%nat && (nat_of_ascii c <=? 57)%nat.

(** The longest run of decimal digits at the front of [s] (what a greedy
    [\d*] consumes) and the rest of the string. *)
Fixpoint spanDigits (s : string) : string * string :=
  match s with
  | EmptyString => (EmptyString, EmptyString)
  | String c s' =>
      if isDigit c
      then let '(ds, rest) := spanDigits s' in (String c ds, rest)
      else (EmptyString, s)
  end.

Definition digitValue (c : ascii) : Z := Z.of_nat (nat_of_ascii c) - 48.

Fixpoint parseDigits (acc : Z) (s : string) : Z :=
  match s with
  | EmptyString => acc
  | String c s' => parseDigits (10 * acc + digitValue c) s'
  end.

(** Decimal numerals, and text that does not go on with a digit. *)
Fixpoint isNumeral (s : string) : bool :=
  match s with
  | EmptyString => false
  | String c EmptyString => isDigit c
  | String c s' => isDigit c && isNumeral s'
  end.

Definition startsWithDigit (s : string) : bool :=
  match s with
  | EmptyString => false
  | String c _ => isDigit c
  end.

(** [parseInt] on text of the shape [-?\d+] (the only shape the sources
    pass to it). *)
Definition parseInt (s : string) : Z :=
  match s with
  | String "-" ds => - parseDigits 0 ds
  | _ => parseDigits 0 s
  end.

End JS.

(* ===================================================================== *)
(** ** [types.ts] *)
(* ===================================================================== *)

Inductive EvalType := cp | mate.

Record StockfishEval := mkEval {
  type : EvalType;
  value : Z;
  bestMove : string;
  pv : list string
}.

Inductive Classification :=
  blunder | mistake | inaccuracy | good | excellent | great | best | brilliant.

Record MoveAnalysis := mkMoveAnalysis {
  game_id : string;
  move_number : Z;
  ply : Z;
  fen : string;
  move_played : string;
  best_move : string;
  eval_before : Z;
  eval_after : Z;
  cp_loss : Z;
  classification : Classification;
  is_user_move : bool
}.

#[global] Instance EvalType_eq_dec : EqDecision EvalType.
Proof. solve_decision. Defined.

#[global] Instance Classification_eq_dec : EqDecision Classification.
Proof. solve_decision. Defined.

(* ===================================================================== *)
(** ** [services/analyzer.ts] *)
(* ===================================================================== *)

Module Analyzer.

Definition BLUNDER_THRESHOLD : Z := 200.
Definition MISTAKE_THRESHOLD : Z := 100.
Definition INACCURACY_THRESHOLD : Z := 50.

Definition classifyMove (cpLoss : Z) (isBestMove : bool)
    (evalBefore evalAfter : Z) (isWhite : bool) : Classification :=
  if cpLoss >=? BLUNDER_THRESHOLD then blunder
  else if cpLoss >=? MISTAKE_THRESHOLD then mistake
  else if cpLoss >=? INACCURACY_THRESHOLD then inaccuracy
  else if isBestMove then
    let improvement :=
      if isWhite then evalAfter - evalBefore else evalBefore - evalAfter in
    if (improvement >? 80) && (Z.abs evalBefore <? 200) then brilliant
    else if improvement >? 40 then great
    else best
  else if cpLoss <? 15 then excellent
  else good.

End Analyzer.

(** The classification table as the specification words it: rows are read
    top to bottom and the first row whose condition holds gives the label. *)
Module ClassificationTable.

Definition improvement (evalBefore evalAfter : Z) (movingSideIsWhite : bool)
  : Z :=
  if movingSideIsWhite then evalAfter - evalBefore
  else evalBefore - evalAfter.

Record Row := mkRow {
  condition : Z -> bool -> Z -> Z -> bool -> bool;
  label : Classification
}.

Definition rows : list Row :=
  [ mkRow (fun l _ _ _ _ => 200 <=? l) blunder;
    mkRow (fun l _ _ _ _ => (100 <=? l) && (l <? 200)) mistake;
    mkRow (fun l _ _ _ _ => (50 <=? l) && (l <? 100)) inaccuracy;
    mkRow (fun l b eb ea w =>
             (l <? 50) && b && (80 <? improvement eb ea w)
             && (Z.abs eb <? 200)) brilliant;
    mkRow (fun l b eb ea w =>
             (l <? 50) && b && (40 <? improvement eb ea w)) great;
    mkRow (fun l b _ _ _ => (l <? 50) && b) best;
    mkRow (fun l b _ _ _ => (l <? 50) && negb b && (l <? 15)) excellent;
    mkRow (fun l b _ _ _ => (l <? 50) && negb b) good ].

(** The label of the first row whose condition holds, if any. *)
Fixpoint firstMatch (rs : list Row) (l : Z) (b : bool) (eb ea : Z)
    (w : bool) : option Classification :=
  match rs with
  | [] => None
  | r :: rs' =>
      if condition r l b eb ea w then Some (label r)
      else firstMatch rs' l b eb ea w
  end.

Definition classify := firstMatch rows.

End ClassificationTable.

(* ===================================================================== *)
(** ** The regular expressions of [runEvaluation] *)
(* ===================================================================== *)

(** [String.prototype.match] with a regular expression without the [g] flag
    returns the leftmost match.  Each expression used by the source starts
    with a literal, so it is modelled by a matcher anchored at the front of
    a string and a search that tries every start position from left to
    right. *)
Module Regex.

Fixpoint stripPrefix (p s : string) : option string :=
  match p, s with
  | EmptyString, _ => Some s
  | String a p', String b s' =>
      if Ascii.eqb a b then stripPrefix p' s' else None
  | String _ _, EmptyString => None
  end.

Fixpoint leftmost {A : Type} (anchored : string -> option A) (s : string)
  : option A :=
  match anchored s with
  | Some r => Some r
  | None =>
      match s with
      | EmptyString => None
      | String _ s' => leftmost anchored s'
      end
  end.

(** [\d+], greedy: the captured digits. *)
Definition digits1 (s : string) : option string :=
  match JS.spanDigits s with
  | (EmptyString, _) => None
  | (ds, _) => Some ds
  end.

(** [/depth (\d+)/] anchored: capture group 1. *)
Definition depthAt (s : string) : option string :=
  match stripPrefix "depth " s with
  | Some rest => digits1 rest
  | None => None
  end.

(** [-?\d+]: when a ["-"] is not followed by a digit the optional sign
    backtracks to the empty match, and [\d+] then fails on the ["-"]. *)
Definition signedDigits (s : string) : option string :=
  match s with
  | String "-" rest =>
      match digits1 rest with
      | Some ds => Some (String "-" ds)
      | None => None
      end
  | _ => digits1 s
  end.

Definition scoreKindAt (word : string) (kind : EvalType) (s : string)
  : option (EvalType * string) :=
  match stripPrefix word s with
  | Some rest =>
      match stripPrefix " " rest with
      | Some num =>
          match signedDigits num with
          | Some v => Some (kind, v)
          | None => None
          end
      | None => None
      end
  | None => None
  end.

(** [/score (cp|mate) (-?\d+)/] anchored: capture groups 1 and 2. *)
Definition scoreAt (s : string) : option (EvalType * string) :=
  match stripPrefix "score " s with
  | Some rest =>
      match scoreKindAt "cp" cp rest with
      | Some r => Some r
      | None => scoreKindAt "mate" mate rest
      end
  | None => None
  end.

(** [.] matches every character but a line terminator. *)
Definition isLineTerminator (c : ascii) : bool :=
  (nat_of_ascii c =? 10)%nat || (nat_of_ascii c =? 13)%nat.

Fixpoint dotStar (s : string) : string :=
  match s with
  | EmptyString => EmptyString
  | String c s' =>
      if isLineTerminator c then EmptyString else String c (dotStar s')
  end.

(** [/pv (.+)/] anchored: capture group 1. *)
Definition pvAt (s : string) : option string :=
  match stripPrefix "pv " s with
  | Some rest =>
      match dotStar rest with
      | EmptyString => None
      | capture => Some capture
      end
  | None => None
  end.

Definition matchDepth : string -> option string := leftmost depthAt.
Definition matchScore : string -> option (EvalType * string) :=
  leftmost scoreAt.
Definition matchPv : string -> option string := leftmost pvAt.

End Regex.

(* ===================================================================== *)
(** ** [services/stockfish.ts]: parsing the output of one search *)
(* ===================================================================== *)

Module Parser.

Definition newline : ascii := ascii_of_nat 10.
Definition space : ascii := ascii_of_nat 32.

(** [fen.split(' ')[1] === 'b'] *)
Definition isBlackTurn (fen : string) : bool :=
  match JS.split space fen !! 1%nat with
  | Some field => String.eqb field "b"
  | None => false
  end.

(** What the promise of the request holds.  [resolve(evaluation)] hands
    over the very object the closure variable [evaluation] refers to, and
    the loop keeps running after it: a later [evaluation.bestMove = ...]
    writes into the object the promise already holds, until an info line
    makes the variable refer to a new object. *)
Inductive Settlement :=
| Unsettled
| SettledShared
| SettledValue (e : StockfishEval).

(** The closure variable [evaluation] and the effects of the loop body so
    far: the state of the promise, the number of [cleanup()] calls, and
    whether a [TypeError] ended the loop. *)
Record Scan := mkScan {
  evaluation : option StockfishEval;
  settlement : Settlement;
  cleanups : nat;
  threw : bool
}.

(** [evaluation = { ... }]: the variable refers to a new object. *)
Definition assignEvaluation (e : StockfishEval) (st : Scan) : Scan :=
  mkScan (Some e)
         (match settlement st, evaluation st with
          | SettledShared, Some old => SettledValue old
          | s, _ => s
          end)
         (cleanups st) (threw st).

(** [resolve(v)] for a fresh object [v]: a settled promise ignores it. *)
Definition resolveWith (v : StockfishEval) (s : Settlement) : Settlement :=
  match s with
  | Unsettled => SettledValue v
  | _ => s
  end.

(** [resolve(evaluation)] *)
Definition resolveShared (s : Settlement) : Settlement :=
  match s with
  | Unsettled => SettledShared
  | _ => s
  end.

(** The [if (line.startsWith('info depth'))] block. *)
Definition infoBlock (fen : string) (depth : Z) (line : string) (st : Scan)
  : Scan :=
  if JS.startsWith "info depth" line then
    let depthMatch := Regex.matchDepth line in
    let currentDepth :=
      match depthMatch with Some d => JS.parseInt d | None => 0 end in
    if currentDepth >=? depth - 2 then
      let scoreMatch := Regex.matchScore line in
      let pvMatch := Regex.matchPv line in
      match scoreMatch with
      | Some (kind, num) =>
          let value := JS.parseInt num in
          let value := if isBlackTurn fen then - value else value in
          assignEvaluation
            {| type := kind;
               value := value;
               bestMove :=
                 match pvMatch with
                 | Some moves =>
                     JS.trim (hd EmptyString (JS.split space moves))
                 | None => EmptyString
                 end;
               pv :=
                 match pvMatch with
                 | Some moves => JS.split space moves
                 | None => []
                 end |} st
      | None => st
      end
    else st
  else st.

(** The [if (line.startsWith('bestmove'))] block.  [line.split(' ')[1]] is
    [undefined] when the line holds no space, and [.trim()] then throws
    before [cleanup()] is reached. *)
Definition bestmoveBlock (line : string) (st : Scan) : Scan :=
  if JS.startsWith "bestmove" line then
    match JS.split space line !! 1%nat with
    | None => mkScan (evaluation st) (settlement st) (cleanups st) true
    | Some token =>
        let bestMove := JS.trim token in
        match evaluation st with
        | Some e =>
            mkScan (Some (mkEval (type e) (value e) bestMove (pv e)))
                   (resolveShared (settlement st))
                   (S (cleanups st)) false
        | None =>
            mkScan None
                   (resolveWith (mkEval cp 0 bestMove [bestMove])
                                (settlement st))
                   (S (cleanups st)) false
        end
    end
  else st.

(** One iteration of [for (const line of lines)]. *)
Definition lineStep (fen : string) (depth : Z) (st : Scan) (line : string)
  : Scan :=
  if threw st then st
  else bestmoveBlock line (infoBlock fen depth line st).

Definition scanLines (fen : string) (depth : Z) (st : Scan)
    (lines : list string) : Scan :=
  fold_left (lineStep fen depth) lines st.

(** The closure variables [output] and [evaluation] of one call of
    [runEvaluation]. *)
Record Closure := mkClosure {
  output : string;
  running : option StockfishEval
}.

Definition freshClosure : Closure := mkClosure EmptyString None.

(** [onData(data)]: the whole accumulated output is split and scanned
    again at every chunk. *)
Definition onData (fen : string) (depth : Z) (c : Closure) (data : string)
  : Closure * Scan :=
  let output' := String.append (output c) data in
  let lines := JS.split newline output' in
  let st := scanLines fen depth (mkScan (running c) Unsettled 0 false) lines
  in (mkClosure output' (evaluation st), st).

(** The value the awaiting caller receives: continuations of the promise
    run after the listener has returned. *)
Definition resolvedValue (st : Scan) : option StockfishEval :=
  match settlement st with
  | Unsettled => None
  | SettledShared => evaluation st
  | SettledValue v => Some v
  end.

(** Chunks are delivered to the listener until it has called [cleanup()],
    which detaches it.  A [TypeError] thrown by the listener does not
    detach it: the next chunk is scanned as well, with the output and the
    evaluation the closure holds by then.  The result is the closure and
    the scan of the last chunk delivered. *)
Fixpoint feed (fen : string) (depth : Z) (c : Closure)
    (chunks : list string) : Closure * Scan :=
  match chunks with
  | [] => (c, mkScan (running c) Unsettled 0 false)
  | data :: rest =>
      let '(c', st) := onData fen depth c data in
      match cleanups st, rest with
      | O, _ :: _ => feed fen depth c' rest
      | _, _ => (c', st)
      end
  end.

(** {2 Vocabulary of the specification} *)

Definition isInfoLine (line : string) : bool :=
  JS.startsWith "info depth" line.

Definition isBestmoveLine (line : string) : bool :=
  JS.startsWith "bestmove" line.

(** The depth a search-progress line reports. *)
Definition reportedDepth (line : string) : Z :=
  match Regex.matchDepth line with
  | Some d => JS.parseInt d
  | None => 0
  end.

(** A qualifying score line: a search-progress line at depth at least
    [depth - 2] that carries a score token. *)
Definition qualifies (depth : Z) (line : string) : bool :=
  isInfoLine line && (depth - 2 <=? reportedDepth line)
  && bool_decide (is_Some (Regex.matchScore line)).

(** The newline-terminated lines of the output: every piece but the
    last. *)
Definition completeLines (out : string) : list string :=
  removelast (JS.split newline out).



(** What a score line contributes to an evaluation. *)
Definition score (e : StockfishEval) : EvalType * Z * list string :=
  (type e, value e, pv e).

(** "The running best evaluation is updated only by complete
    (newline-terminated) search-progress lines whose reported depth is
    at least [depth - 2] and which carry a score token", for one chunk
    received by a listener. *)
Definition updatedOnlyByCompleteLines (fen : string) (depth : Z)
    (c : Closure) (data : string) : Prop :=
  score <$> running (onData fen depth c data).1 <> score <$> running c ->
  exists line,
    line ∈ completeLines (String.append (output c) data)
    /\ qualifies depth line = true.


End Parser.

(* ===================================================================== *)
(** ** [services/stockfish.ts]: the pool *)
(* ===================================================================== *)

Module Pool.

(** An entry of [instance.queue]; [req_id] stands for the pair of
    callbacks [resolve]/[reject] of the request's promise. *)
Record Request := mkRequest {
  req_id : nat;
  req_fen : string;
  req_depth : Z
}.

#[global] Instance Request_eq_dec : EqDecision Request.
Proof. solve_decision. Defined.

(** What is written to the engine's standard input. *)
Inductive Command :=
| PositionFen (fen : string)
| GoDepth (depth : Z).

(** A ['data'] listener on the engine's standard output: one running call
    of [runEvaluation] with its closure variables.  Its timeout timer is
    armed exactly as long as the listener is attached. *)
Record Listener := mkListener {
  request : Request;
  closure : Parser.Closure
}.

(** [process] is represented by the commands written to it and by the
    listeners attached to its output. *)
Record StockfishInstance := mkInstance {
  busy : bool;
  queue : list Request;
  listeners : list Listener;
  stdin : list Command
}.

Inductive Outcome :=
| Resolved (e : StockfishEval)
| Rejected (message : string).

(** The pool after [initialize()], with the promises settled so far in
    the order in which they were settled. *)
Record StockfishPool := mkPool {
  instances : list StockfishInstance;
  settled : list (nat * Outcome);
  nextId : nat
}.

(** The evaluation requests in flight on an instance. *)
Definition inFlight (inst : StockfishInstance) : list Request :=
  request <$> listeners inst.

Definition runEvaluation (inst : StockfishInstance) (req : Request)
  : StockfishInstance :=
  mkInstance true
             (queue inst)
             (listeners inst ++ [mkListener req Parser.freshClosure])
             (stdin inst ++ [PositionFen (req_fen req);
                             GoDepth (req_depth req)]).

(** [cleanup] of the call of [runEvaluation] that serves request [rid]. *)
Definition cleanup (rid : nat) (inst : StockfishInstance)
  : StockfishInstance :=
  let attached :=
    filter (fun l => req_id (request l) <> rid) (listeners inst) in
  match queue inst with
  | [] => mkInstance false [] attached (stdin inst)
  | next :: rest =>
      runEvaluation (mkInstance false rest attached (stdin inst)) next
  end.

(** [evaluate(fen, depth)] on an initialized pool. *)
Definition evaluate (pool : StockfishPool) (fen : string) (depth : Z)
  : StockfishPool :=
  let req := mkRequest (nextId pool) fen depth in
  let chosen :=
    match list_find (fun i => busy i = false) (instances pool) with
    | Some (k, _) => k
    | None => 0%nat
    end in
  match instances pool !! chosen with
  | None =>
      (* [instances[0]] is [undefined]: the executor throws and the
         promise is rejected *)
      mkPool (instances pool)
             (settled pool ++ [(req_id req, Rejected "TypeError")])
             (S (nextId pool))
  | Some inst =>
      let inst' :=
        if busy inst
        then mkInstance (busy inst) (queue inst ++ [req])
                        (listeners inst) (stdin inst)
        else runEvaluation inst req in
      mkPool (<[chosen := inst']> (instances pool))
             (settled pool)
             (S (nextId pool))
  end.

Definition setClosure (rid : nat) (c : Parser.Closure)
    (inst : StockfishInstance) : StockfishInstance :=
  mkInstance (busy inst) (queue inst)
             ((fun l => if decide (req_id (request l) = rid)
                        then mkListener (request l) c else l)
                <$> listeners inst)
             (stdin inst).

(** One listener receives a chunk. *)
Definition deliver (data : string) (l : Listener)
    (acc : StockfishInstance * list (nat * Outcome) * bool)
  : StockfishInstance * list (nat * Outcome) * bool :=
  let '(inst, log, thrown) := acc in
  if thrown then acc
  else
    let req := request l in
    let '(c', st) :=
      Parser.onData (req_fen req) (req_depth req) (closure l) data in
    let inst1 := setClosure (req_id req) c' inst in
    let inst2 := Nat.iter (Parser.cleanups st) (cleanup (req_id req)) inst1
    in
    let log' :=
      match Parser.resolvedValue st with
      | Some v => log ++ [(req_id req, Resolved v)]
      | None => log
      end in
    (inst2, log', Parser.threw st).

(** The engine of instance [k] writes [data]: the listeners attached when
    the event is emitted are called in order. *)
Definition stdoutData (pool : StockfishPool) (k : nat) (data : string)
  : StockfishPool :=
  match instances pool !! k with
  | None => pool
  | Some inst =>
      let '(inst', log, _) :=
        fold_left (fun acc l => deliver data l acc) (listeners inst)
                  (inst, settled pool, false) in
      mkPool (<[k := inst']> (instances pool)) log (nextId pool)
  end.

(** The timer of request [rid] on instance [k] fires. *)
Definition timeout (pool : StockfishPool) (k : nat) (rid : nat)
  : StockfishPool :=
  match instances pool !! k with
  | None => pool
  | Some inst =>
      if bool_decide (rid ∈ req_id <$> inFlight inst) then
        mkPool (<[k := cleanup rid inst]> (instances pool))
               (settled pool ++ [(rid, Rejected "Evaluation timeout")])
               (nextId pool)
      else pool
  end.

Definition idle : StockfishInstance := mkInstance false [] [] [].

(** [new StockfishPool(poolSize)] after [initialize()]. *)
Definition initialized (poolSize : nat) : StockfishPool :=
  mkPool (replicate poolSize idle) [] 0.

End Pool.

(* ===================================================================== *)
(** ** [services/stockfish.ts]: [analyzeGame] *)
(* ===================================================================== *)

Module Stockfish.

Definition DEFAULT_DEPTH : Z := 10.

Inductive Color := white | black.

(** An element of [chess.history({ verbose: true })]. *)
Record Move := mkMove {
  san : string;
  from : string;
  to : string;
  promotion : option string
}.

(** An element of the array [analyzeGame] returns. *)
Record PlyResult := mkPlyResult {
  ply : Z;
  moveNumber : Z;
  fen : string;
  movePlayed : string;
  movePlayedUci : string;
  evaluation : StockfishEval;
  isUserMove : bool
}.

(** The run of an [async] function against the pool: the evaluation
    requests issued so far are threaded through, and [None] is a thrown
    exception (a rejected promise). *)
Definition Async (A : Type) : Type :=
  list (string * Z) -> list (string * Z) * option A.

Definition ret {A} (a : A) : Async A := fun log => (log, Some a).

Definition throw {A} : Async A := fun log => (log, None).

Definition bind {A B} (m : Async A) (k : A -> Async B) : Async B :=
  fun log =>
    match m log with
    | (log', Some a) => k a log'
    | (log', None) => (log', None)
    end.

Definition lift {A} (o : option A) : Async A :=
  match o with Some a => ret a | None => throw end.

#[local] Notation "'await' x <- m ; k" := (bind m (fun x => k))
  (at level 10, x name, m at level 100, k at level 200).

Section AnalyzeGame.

(** chess.js: a board, its initial position, [loadPgn] followed by
    [history({ verbose: true })] ([None] when [loadPgn] throws), [fen()]
    and [move()] ([None] when it throws). *)
Variable Chess : Type.
Variable initial : Chess.
Variable loadPgn : string -> option (list Move).
Variable chessFen : Chess -> string.
Variable chessMove : Chess -> Move -> option Chess.

(** The answer of the pool to the [n]-th request issued ([None]: the
    promise is rejected). *)
Variable answer : nat -> string -> Z -> option StockfishEval.

Definition evaluatePosition (fen : string) (depth : Z)
  : Async StockfishEval :=
  fun log => (log ++ [(fen, depth)], answer (length log) fen depth).

(** The body of [for (let i = 0; i < moves.length; i++)], from index [i]
    on, with the moves still to replay. *)
Fixpoint replay (userColor : Color) (depth : Z) (chess : Chess)
    (i : nat) (moves : list Move) (results : list PlyResult)
  : Async (list PlyResult) :=
  match moves with
  | [] => ret results
  | move :: rest =>
      let fen := chessFen chess in
      let isWhiteMove := Nat.even i in
      let isUserMove :=
        match userColor with
        | white => isWhiteMove
        | black => negb isWhiteMove
        end in
      await evaluation <- evaluatePosition fen depth;
      let results' :=
        results ++
          [ {| ply := Z.of_nat i + 1;
               moveNumber := Z.of_nat i / 2 + 1;
               fen := fen;
               movePlayed := san move;
               movePlayedUci :=
                 String.append (from move)
                   (String.append (to move)
                      (default EmptyString (promotion move)));
               evaluation := evaluation;
               isUserMove := isUserMove |} ] in
      await chess' <- lift (chessMove chess move);
      replay userColor depth chess' (S i) rest results'
  end.

Definition analyzeGame (pgn : string) (userColor : Color) (depth : Z)
  : Async (list PlyResult) :=
  await moves <- lift (loadPgn pgn);
  replay userColor depth initial 0 moves [].

End AnalyzeGame.

End Stockfish.

(* ===================================================================== *)
(** ** [routes/analysis.ts]: the loop of [POST /game/:id] *)
(* ===================================================================== *)

Module AnalysisRoute.

(** [e.type === 'mate' ? e.value * 10000 : e.value] *)
Definition centipawns (e : StockfishEval) : Z :=
  match type e with
  | mate => value e * 10000
  | cp => value e
  end.

Definition isBestMove (current : Stockfish.PlyResult) : bool :=
  String.eqb
    (JS.trim (JS.toLowerCase (Stockfish.movePlayedUci current)))
    (JS.trim (JS.toLowerCase (bestMove (Stockfish.evaluation current)))).

(** The body of [for (let i = 0; i < analysisResults.length; i++)]. *)
Definition analyzePly (id : string)
    (analysisResults : list Stockfish.PlyResult)
    (i : nat) (current : Stockfish.PlyResult) : MoveAnalysis :=
  let next := analysisResults !! (i + 1)%nat in
  let evalBefore := centipawns (Stockfish.evaluation current) in
  let evalAfter :=
    match next with
    | Some n => centipawns (Stockfish.evaluation n)
    | None => evalBefore
    end in
  let isWhiteMove := Z.rem (Stockfish.ply current) 2 =? 1 in
  let cpLoss :=
    if isWhiteMove then evalBefore - evalAfter
    else evalAfter - evalBefore in
  let cpLoss := Z.max 0 cpLoss in
  let classification :=
    Analyzer.classifyMove cpLoss (isBestMove current) evalBefore evalAfter
                          isWhiteMove in
  {| game_id := id;
     move_number := Stockfish.moveNumber current;
     ply := Stockfish.ply current;
     fen := Stockfish.fen current;
     move_played := Stockfish.movePlayed current;
     best_move := bestMove (Stockfish.evaluation current);
     eval_before := evalBefore;
     eval_after := evalAfter;
     cp_loss := cpLoss;
     classification := classification;
     is_user_move := Stockfish.isUserMove current |}.

(** The array [moves] when the loop is over (the rows inserted in the
    table [analysis] are the same records). *)
Definition analyzeMoves (id : string)
    (analysisResults : list Stockfish.PlyResult) : list MoveAnalysis :=
  imap (analyzePly id analysisResults) analysisResults.

(** What the loop reads of a result of [analyzeGame]: every field, and of
    the evaluation its centipawn value and its best move. *)
Definition sameForAnalysis (a b : Stockfish.PlyResult) : Prop :=
  Stockfish.ply a = Stockfish.ply b
  /\ Stockfish.moveNumber a = Stockfish.moveNumber b
  /\ Stockfish.fen a = Stockfish.fen b
  /\ Stockfish.movePlayed a = Stockfish.movePlayed b
  /\ Stockfish.movePlayedUci a = Stockfish.movePlayedUci b
  /\ Stockfish.isUserMove a = Stockfish.isUserMove b
  /\ bestMove (Stockfish.evaluation a) = bestMove (Stockfish.evaluation b)
  /\ centipawns (Stockfish.evaluation a)
     = centipawns (Stockfish.evaluation b).

End AnalysisRoute.

(* ===================================================================== *)
(** ** Sample data *)
(* ===================================================================== *)

Module Samples.

Local Open Scope string_scope.

Definition nl : string := String Parser.newline "".

Definition whiteToMove : string :=
  "rnbqkbnr/pppppppp/8/8/8/8/PPPPPPPP/RNBQKBNR w KQkq - 0 1".

Definition blackToMove : string :=
  "rnbqkbnr/pppppppp/8/8/4P3/8/PPPP1PPP/RNBQKBNR b KQkq e3 0 1".

Definition plyResult (p : Z) (uci : string) (e : StockfishEval)
  : Stockfish.PlyResult :=
  {| Stockfish.ply := p;
     Stockfish.moveNumber := (p + 1) / 2;
     Stockfish.fen := if Z.odd p then whiteToMove else blackToMove;
     Stockfish.movePlayed := uci;
     Stockfish.movePlayedUci := uci;
     Stockfish.evaluation := e;
     Stockfish.isUserMove := Z.odd p |}.

(** 1. e4 e5 2. Qh5, with a forced mate announced after the third ply. *)
Definition threePlies : list Stockfish.PlyResult :=
  [ plyResult 1 "e2e4" (mkEval cp 30 "e2e4" ["e2e4"; "e7e5"]);
    plyResult 2 "e7e5" (mkEval cp 35 "c7c5" ["c7c5"]);
    plyResult 3 "d1h5" (mkEval mate 2 "g1f3" ["g1f3"]) ].

(** The same game with the mate score already written in centipawns. *)
Definition threePliesCp : list Stockfish.PlyResult :=
  [ plyResult 1 "e2e4" (mkEval cp 30 "e2e4" []);
    plyResult 2 "e7e5" (mkEval cp 35 "c7c5" []);
    plyResult 3 "d1h5" (mkEval cp 20000 "g1f3" []) ].

(** A stand-in for chess.js that accepts one game only: the board is the
    number of plies played. *)
Definition foolsMate : list Stockfish.Move :=
  [ Stockfish.mkMove "f3" "f2" "f3" None;
    Stockfish.mkMove "e5" "e7" "e5" None;
    Stockfish.mkMove "g4" "g2" "g4" None;
    Stockfish.mkMove "Qh4#" "d8" "h4" None ].

Definition loadPgn (pgn : string) : option (list Stockfish.Move) :=
  if String.eqb pgn "1. f3 e5 2. g4 Qh4# 0-1" then Some foolsMate
  else None.

Definition chessFen (played : nat) : string :=
  if Nat.even played then whiteToMove else blackToMove.

Definition chessMove (played : nat) (_ : Stockfish.Move) : option nat :=
  Some (S played).

(** A stand-in for the pool: the position gets worse for White by 60
    centipawns at every request. *)
Definition answer (n : nat) (_ : string) (_ : Z) : option StockfishEval :=
  Some (mkEval cp (- 60 * Z.of_nat n) "e7e5" ["e7e5"]).

Definition analyzeGame :=
  Stockfish.analyzeGame nat 0%nat loadPgn chessFen chessMove answer.

(** The singleton pool of two workers after four calls of [evaluate]:
    requests 0 and 1 run on the two workers, requests 2 and 3 wait in
    the queue of the first. *)
Definition fourRequests : Pool.StockfishPool :=
  Pool.evaluate
    (Pool.evaluate
       (Pool.evaluate
          (Pool.evaluate (Pool.initialized 2) whiteToMove 12)
          blackToMove 12)
       whiteToMove 12)
    blackToMove 12.

(** The engine of the first worker announces two best moves in one
    chunk. *)
Definition twoBestmoves : string :=
  "bestmove e2e4" +:+ nl +:+ "bestmove d2d4" +:+ nl.

End Samples.

(* ===================================================================== *)
(** ** Vocabulary for the pool *)
(* ===================================================================== *)

Module PoolSpec.

(** The requests an instance has accepted and not completed, in the order
    in which they are served: the ones in flight, then the queue. *)
Definition pending (inst : Pool.StockfishInstance) : list Pool.Request :=
  Pool.inFlight inst ++ Pool.queue inst.

(** The state the dispatch logic is meant to keep an instance in: at most
    one listener, busy exactly when there is one, and nothing queued on an
    instance that is not busy. *)
Definition serving (inst : Pool.StockfishInstance) : Prop :=
  (length (Pool.listeners inst) <= 1)%nat
  /\ (Pool.busy inst = true <-> Pool.listeners inst <> [])
  /\ (Pool.busy inst = false -> Pool.queue inst = []).

(** The number of best-move lines a listener meets when it scans its
    output after [data] has arrived. *)
Definition bestmoveLines (l : Pool.Listener) (data : string) : nat :=
  length (filter (fun line => Parser.isBestmoveLine line = true)
            (JS.split Parser.newline
               (String.append (Parser.output (Pool.closure l)) data))).

(** What happens to a pool once it is initialized. *)
Inductive Event :=
| Evaluate (fen : string) (depth : Z)
| StdoutData (k : nat) (data : string)
| Timeout (k : nat) (rid : nat).

Definition step (pool : Pool.StockfishPool) (ev : Event)
  : Pool.StockfishPool :=
  match ev with
  | Evaluate fen depth => Pool.evaluate pool fen depth
  | StdoutData k data => Pool.stdoutData pool k data
  | Timeout k rid => Pool.timeout pool k rid
  end.

Definition run (pool : Pool.StockfishPool) (evs : list Event)
  : Pool.StockfishPool :=
  fold_left step evs pool.

(** A chunk that shows the listeners of its instance at most one best-move
    line each. *)
Definition calm (pool : Pool.StockfishPool) (ev : Event) : Prop :=
  match ev with
  | StdoutData k data =>
      forall inst l,
        Pool.instances pool !! k = Some inst ->
        l ∈ Pool.listeners inst ->
        (bestmoveLines l data <= 1)%nat
  | _ => True
  end.

Fixpoint calmRun (pool : Pool.StockfishPool) (evs : list Event) : Prop :=
  match evs with
  | [] => True
  | ev :: rest => calm pool ev /\ calmRun (step pool ev) rest
  end.

End PoolSpec.

(* ===================================================================== *)
(** ** Vocabulary for the scan *)
(* ===================================================================== *)

Module ScanSpec.

(** What every scan keeps: the promise is pending exactly as long as
    [cleanup()] has not been called, and a promise that shares its object
    with the closure has an object to share. *)
Definition paired (st : Parser.Scan) : Prop :=
  (Parser.cleanups st = 0%nat <-> Parser.settlement st = Parser.Unsettled)
  /\ (Parser.settlement st = Parser.SettledShared ->
      is_Some (Parser.evaluation st)).

End ScanSpec.

(* ===================================================================== *)
(** ** [services/analyzer.ts]: game phase, opening, summary *)
(* ===================================================================== *)

From stdpp Require Import gmap.

Local Open Scope Z_scope.

Module Summary.

Inductive Phase := opening | middlegame | endgame.

#[global] Instance Phase_eq_dec : EqDecision Phase.
Proof. solve_decision. Defined.

(** [s.replace(/[0-9/]/g, '')] *)
Fixpoint stripDigitsAndSlashes (s : string) : string :=
  match s with
  | EmptyString => EmptyString
  | String c s' =>
      if JS.isDigit c || Ascii.eqb c "/" then stripDigitsAndSlashes s'
      else String c (stripDigitsAndSlashes s')
  end.

Definition getGamePhase (fen : string) (moveNumber : Z) : Phase :=
  if moveNumber <=? 10 then opening
  else
    let pieceCount :=
      Z.of_nat (String.length
                  (stripDigitsAndSlashes
                     (hd EmptyString (JS.split Parser.space fen)))) in
    if pieceCount <=? 12 then endgame else middlegame.

(** [a || b] on header values: [a] unless it is [undefined] or [''] *)
Definition truthy (o : option string) : option string :=
  match o with
  | Some s => if String.eqb s EmptyString then None else Some s
  | None => None
  end.

(** [s.replace(/-/g, ' ')] *)
Fixpoint replaceDashes (s : string) : string :=
  match s with
  | EmptyString => EmptyString
  | String c s' =>
      String (if Ascii.eqb c "-" then " "%char else c) (replaceDashes s')
  end.

Record OpeningInfo := mkOpeningInfo { eco : string; name : string }.

(** [headers] is the object chess.js returns for the tag pairs of a PGN:
    a map from tag names to strings. *)
Definition extractOpeningInfo (headers : gmap string string) : OpeningInfo :=
  {| eco :=
       default (default "Unknown"%string (truthy (headers !! "Opening"%string)))
               (truthy (headers !! "ECO"%string));
     name :=
       default
         (default "Unknown Opening"%string
                  (truthy (headers !! "Opening"%string)))
         (truthy
            ((fun url =>
                replaceDashes
                  (default EmptyString (last (JS.split "/" url))))
               <$> headers !! "ECOUrl"%string)) |}.

(** The values of [MoveAnalysis['classification']]. *)
Definition className (c : Classification) : string :=
  match c with
  | blunder => "blunder"
  | mistake => "mistake"
  | inaccuracy => "inaccuracy"
  | good => "good"
  | excellent => "excellent"
  | great => "great"
  | best => "best"
  | brilliant => "brilliant"
  end.

(** The counters of a [PlayerStats] object, by property name.  The object
    has one more property, [accuracy], a floating-point mean that is kept
    out of this model together with the running sum that feeds it; no
    classification is called [accuracy], so [stats[cat]] never selects
    it. *)
Definition initialStats (totalMoves : Z) : gmap string Z :=
  list_to_map
    [ ("totalMoves", totalMoves); ("blunders", 0); ("mistakes", 0);
      ("inaccuracies", 0); ("excellent", 0); ("great", 0); ("best", 0);
      ("brilliant", 0) ]%string.

(** [if (stats[cat] !== undefined) stats[cat]++] *)
Definition countMove (stats : gmap string Z) (m : MoveAnalysis)
  : gmap string Z :=
  let cat := className (classification m) in
  match stats !! cat with
  | Some n => <[cat := n + 1]> stats
  | None => stats
  end.

Definition analyzePlayer (moves : list MoveAnalysis) (isUser : bool)
  : gmap string Z :=
  let playerMoves := filter (fun m => is_user_move m = isUser) moves in
  foldl countMove (initialStats (Z.of_nat (length playerMoves))) playerMoves.

Record PhaseCounts := mkPhaseCounts { blunders : Z; mistakes : Z }.

(** [gamePhaseBreakdown[phase].blunders++] and [.mistakes++] *)
Definition countPhase (breakdown : Phase -> PhaseCounts) (move : MoveAnalysis)
  : Phase -> PhaseCounts :=
  let phase := getGamePhase (fen move) (move_number move) in
  if decide (classification move = blunder) then
    fun p => if decide (p = phase)
             then mkPhaseCounts (blunders (breakdown p) + 1)
                                (mistakes (breakdown p))
             else breakdown p
  else if decide (classification move = mistake) then
    fun p => if decide (p = phase)
             then mkPhaseCounts (blunders (breakdown p))
                                (mistakes (breakdown p) + 1)
             else breakdown p
  else breakdown.

Definition gamePhaseBreakdown (moves : list MoveAnalysis)
  : Phase -> PhaseCounts :=
  foldl countPhase (fun _ => mkPhaseCounts 0 0)
        (filter (fun m => is_user_move m = true) moves).

Record GameSummary := mkGameSummary {
  totalMoves : Z;
  user : gmap string Z;
  opponent : gmap string Z;
  phaseBreakdown : Phase -> PhaseCounts
}.

Definition generateSummary (moves : list MoveAnalysis) : GameSummary :=
  {| totalMoves := Z.of_nat (length moves);
     user := analyzePlayer moves true;
     opponent := analyzePlayer moves false;
     phaseBreakdown := gamePhaseBreakdown moves |}.

(** How many of the moves of a player carry a label. *)
Definition labelled (c : Classification) (isUser : bool)
    (moves : list MoveAnalysis) : Z :=
  Z.of_nat (length (filter (fun m => is_user_move m = isUser
                                     /\ classification m = c) moves)).

End Summary.

(* ===================================================================== *)
(** ** [services/stockfish.ts]: the UCI handshake of [createInstance] *)
(* ===================================================================== *)

Module Handshake.

(** [s.includes(needle)] *)
Fixpoint includes (needle s : string) : bool :=
  String.prefix needle s
  || match s with
     | EmptyString => false
     | String _ s' => includes needle s'
     end.

(** The closure variable [output], what has been written to the engine,
    and whether [resolve(instance)] has been called (the listener is then
    detached). *)
Record State := mkState {
  output : string;
  written : list string;
  ready : bool
}.

Definition nl : string := String Parser.newline EmptyString.

Definition options : list string :=
  [ "setoption name Threads value 1" +:+ nl;
    "setoption name Hash value 128" +:+ nl;
    "isready" +:+ nl ].

(** The listener is attached and [uci] is written. *)
Definition start : State := mkState EmptyString ["uci" +:+ nl] false.

Definition onData (st : State) (data : string) : State :=
  if ready st then st
  else
    let output1 := output st +:+ data in
    let '(output2, written2) :=
      if includes "uciok" output1 && negb (includes "readyok" output1) then
        if negb (includes "_options_sent_" output1)
        then (output1 +:+ "_options_sent_", written st ++ options)
        else (output1, written st)
      else (output1, written st) in
    mkState output2 written2 (includes "readyok" output2).

Definition run (chunks : list string) : State := fold_left onData chunks start.

(** The timer after 30 seconds rejects unless [readyok] has been seen. *)
Definition timesOut (st : State) : bool :=
  negb (includes "readyok" (output st)).

End Handshake.

(* ===================================================================== *)
(** ** [services/chesscom.ts] and [services/lichess.ts] *)
(* ===================================================================== *)

Module GameImport.

Definition lastOr (d : string) (l : list string) : string := default d (last l).

(** chesscom [generateGameId]: the last piece of [game.url.split('/')]
    behind the prefix. *)
Definition chesscomGameId (url : string) : string :=
  "chesscom_" +:+ lastOr EmptyString (JS.split "/" url).

(** lichess [generateGameId] *)
Definition lichessGameId (id : string) : string := "lichess_" +:+ id.

(** [a.slice(start)] *)
Definition sliceFrom {A} (start : Z) (a : list A) : list A :=
  let len := Z.of_nat (length a) in
  let from := if start <? 0 then Z.max (len + start) 0
              else Z.min start len in
  drop (Z.to_nat from) a.

(** [a.slice(0, stop)] *)
Definition sliceTo {A} (stop : Z) (a : list A) : list A :=
  let len := Z.of_nat (length a) in
  let to := if stop <? 0 then Z.max (len + stop) 0 else Z.min stop len in
  take (Z.to_nat to) a.

Section FetchAllGames.

(** A game as chess.com delivers it, and [getGamesFromArchive] ([None]
    when the request fails). *)
Variable Game : Type.
Variable getGamesFromArchive : string -> option (list Game).

(** The loop over [recentArchives], with the games collected so far. *)
Fixpoint collect (limit : Z) (recentArchives : list string)
    (allGames : list Game) : list Game :=
  match recentArchives with
  | [] => allGames
  | archiveUrl :: rest =>
      if Z.of_nat (length allGames) >=? limit then allGames
      else
        match getGamesFromArchive archiveUrl with
        | Some games => collect limit rest (allGames ++ games)
        | None => collect limit rest allGames
        end
  end.

(** [fetchAllGames] once [getPlayerArchives] has answered with
    [archives]. *)
Definition fetchAllGames (archives : list string) (limit months : Z)
  : list Game :=
  let recentArchives := reverse (sliceFrom (- months) archives) in
  sliceTo limit (collect limit recentArchives []).

End FetchAllGames.

End GameImport.

(* ===================================================================== *)
(** ** [ipcHandlers.ts]: the statement [listGames] prepares *)
(* ===================================================================== *)

Module Games.

(** A value bound to a placeholder. *)
Inductive Param :=
| Text (s : string)
| Number (n : Z).

(** The fields of [query] that shape the statement: strings when they are
    there, but for [analyzed], which also comes as a number. *)
Record Query := mkQuery {
  source : option string;
  opening : option string;
  analyzed : option Param;
  result : option string;
  sortBy : option string;
  order : option string
}.

(** [if (x)] on a field *)
Definition given (o : option string) : option string :=
  match o with
  | Some s => if String.eqb s EmptyString then None else Some s
  | None => None
  end.

Definition validSortFields : list string :=
  ["played_at"; "opening_eco"; "result"]%string.

Record Statement := mkStatement {
  whereClause : string;
  params : list Param;
  sortField : string;
  sortOrder : string
}.

(** The text and the parameters [listGames] hands to [db.prepare]. *)
Definition listGamesStatement (q : Query) : Statement :=
  let w0 := "WHERE 1=1"%string in
  let p0 : list Param := [] in
  let '(w1, p1) :=
    match given (source q) with
    | Some s => (w0 +:+ " AND source = ?", p0 ++ [Text s])
    | None => (w0, p0)
    end in
  let '(w2, p2) :=
    match given (opening q) with
    | Some o => (w1 +:+ " AND opening_eco LIKE ?", p1 ++ [Text (o +:+ "%")])
    | None => (w1, p1)
    end in
  let '(w3, p3) :=
    match analyzed q with
    | Some a =>
        (w2 +:+ " AND analyzed = ?",
         p2 ++ [Number (match a with
                        | Text t => if String.eqb t "true" then 1 else 0
                        | Number n => if n =? 1 then 1 else 0
                        end)])
    | None => (w2, p2)
    end in
  let '(w4, p4) :=
    match given (result q) with
    | Some r => (w3 +:+ " AND result = ?", p3 ++ [Text r])
    | None => (w3, p3)
    end in
  let sortBy' := default "played_at"%string (sortBy q) in
  {| whereClause := w4;
     params := p4;
     sortField := if bool_decide (sortBy' ∈ validSortFields) then sortBy'
                  else "played_at"%string;
     sortOrder := if String.eqb (default "desc"%string (order q)) "asc"
                  then "ASC"%string else "DESC"%string |}.

(** The number of placeholders in a piece of SQL. *)
Fixpoint placeholders (sql : string) : nat :=
  match sql with
  | EmptyString => 0
  | String c sql' =>
      ((if Ascii.eqb c "?" then 1 else 0) + placeholders sql')%nat
  end.

End Games.

(* ===================================================================== *)
(** ** More sample data *)
(* ===================================================================== *)

Module Traces.

(** Three requests on a pool of two workers; the first worker's engine
    answers in two chunks, the second worker's request runs into its
    timeout. *)
Definition busyDay : list PoolSpec.Event :=
  [ PoolSpec.Evaluate Samples.whiteToMove 12;
    PoolSpec.Evaluate Samples.blackToMove 12;
    PoolSpec.Evaluate Samples.whiteToMove 12;
    PoolSpec.StdoutData 0 "info depth 12 score cp 31 pv e2e4 e7e5";
    PoolSpec.StdoutData 0
      (Samples.nl +:+ "bestmove e2e4 ponder e7e5" +:+ Samples.nl);
    PoolSpec.Timeout 1 1 ].

(** Five records of one game: the user plays White. *)
Definition record (p : Z) (c : Classification) (board : string)
  : MoveAnalysis :=
  {| game_id := "g1"; move_number := (p + 1) / 2; ply := p;
     fen := board +:+ (if Z.odd p then " w - - 0 1" else " b - - 0 1");
     move_played := "Kd2"; best_move := "e1d2";
     eval_before := 0; eval_after := 0; cp_loss := 0;
     classification := c; is_user_move := Z.odd p |}.

Definition fiveRecords : list MoveAnalysis :=
  [ record 1 excellent "rnbqkbnr/pppppppp/8/8/8/8/PPPPPPPP/RNBQKBNR";
    record 2 blunder "rnbqkbnr/pppppppp/8/8/8/8/PPPPPPPP/RNBQKBNR";
    record 23 blunder "r3k2r/pppppppp/8/8/8/8/PPPPPPPP/R3K2R";
    record 24 mistake "r3k2r/pppppppp/8/8/8/8/PPPPPPPP/R3K2R";
    record 61 mistake "4k3/8/8/8/8/8/4P3/4K3" ].

(** The tag pairs of a game exported by chess.com. *)
Definition chessComHeaders : gmap string string :=
  list_to_map
    [ ("Event", "Live Chess"); ("ECO", "");
      ("ECOUrl", "https://www.chess.com/openings/Sicilian-Defense") ]%string.

(** Three monthly archives of a player; the request for the second one
    fails. *)
Definition archives : list string :=
  ["2024/01"; "2024/02"; "2024/03"]%string.

Definition getGamesFromArchive (archiveUrl : string) : option (list nat) :=
  if String.eqb archiveUrl "2024/01" then Some [11; 12; 13]%nat
  else if String.eqb archiveUrl "2024/03" then Some [31; 32]%nat
  else None.

(** A pool that rejects its third request (a timeout). *)
Definition thirdTimesOut (n : nat) (fen : string) (depth : Z)
  : option StockfishEval :=
  if (n =? 2)%nat then None else Samples.answer n fen depth.

End Traces.

(* ===================================================================== *)
(** * Properties *)
(* ===================================================================== *)

(** ** Move classification *)

Lemma geb_false_lt (a b : Z) : (a >=? b) = false -> a < b.
Proof. rewrite Z.geb_leb. apply Z.leb_gt. Qed.

Lemma geb_true_le (a b : Z) : (a >=? b) = true -> b <= a.
Proof. rewrite Z.geb_leb. apply Z.leb_le. Qed.

Ltac z_cases :=
  repeat match goal with
    | |- context [?a >=? ?b] =>
        let E := fresh "E" in
        destruct (a >=? b) eqn:E;
        [apply geb_true_le in E | apply geb_false_lt in E]
    | |- context [?a >? ?b] =>
        rewrite (Z.gtb_ltb a b)
    | |- context [?a <=? ?b] => destruct (Z.leb_spec a b)
    | |- context [?a <? ?b] => destruct (Z.ltb_spec a b)
    end.

(** C1.  [classifyMove] returns the label of the first row of the
    specification's table whose condition holds, for every non-negative
    centipawn loss; in particular a loss of 250 is a blunder, a loss of 120
    a mistake, and the best move that lifts White from 50 to 140 at a loss
    of 10 is brilliant. *)
Theorem classifyMove_follows_table
    (cpLoss : Z) (isBestMove : bool) (evalBefore evalAfter : Z)
    (isWhite : bool) :
  0 <= cpLoss ->
  ClassificationTable.classify cpLoss isBestMove evalBefore evalAfter isWhite
    = Some (Analyzer.classifyMove cpLoss isBestMove evalBefore evalAfter
                                  isWhite)
  /\ Analyzer.classifyMove 250 false evalBefore evalAfter isWhite = blunder
  /\ Analyzer.classifyMove 120 false evalBefore evalAfter isWhite = mistake
  /\ Analyzer.classifyMove 10 true 50 140 true = brilliant.
Proof.
  intros _. split; [|repeat split].
  unfold ClassificationTable.classify, ClassificationTable.rows,
    ClassificationTable.firstMatch, ClassificationTable.improvement,
    ClassificationTable.condition, ClassificationTable.label,
    Analyzer.classifyMove, Analyzer.BLUNDER_THRESHOLD,
    Analyzer.MISTAKE_THRESHOLD, Analyzer.INACCURACY_THRESHOLD.
  destruct isBestMove, isWhite; simpl; z_cases; simpl;
    try reflexivity; lia.
Qed.

Lemma classifyMove_follows_table_witness :
  0 <= 10
  /\ ClassificationTable.classify 10 true 50 140 true = Some brilliant.
Proof.
  split; [lia|].
  exact (proj1 (classifyMove_follows_table 10 true 50 140 true
                  ltac:(lia))).
Defined.

(** ** Centipawn loss *)

Section Replay.

Context (Chess : Type) (initial : Chess)
        (loadPgn : string -> option (list Stockfish.Move))
        (chessFen : Chess -> string)
        (chessMove : Chess -> Stockfish.Move -> option Chess)
        (answer : nat -> string -> Z -> option StockfishEval).

(** [replay] only appends to [results], one record per move, numbered
    from [i + 1] on. *)
Lemma replay_appends userColor depth moves :
  forall chess i acc log log' res,
    Stockfish.replay Chess chessFen chessMove answer
      userColor depth chess i moves acc log = (log', Some res) ->
    exists new,
      res = acc ++ new
      /\ length new = length moves
      /\ forall k r, new !! k = Some r ->
                     Stockfish.ply r = Z.of_nat (i + k) + 1.
Proof.
  induction moves as [|move rest IH]; intros chess i acc log log' res.
  - intros [= _ <-]. exists []. rewrite app_nil_r.
    split; [done|]. split; [done|]. intros k r Hk. by destruct k.
  - cbn [Stockfish.replay]. unfold Stockfish.bind at 1.
    unfold Stockfish.evaluatePosition at 1.
    destruct (answer (length log) (chessFen chess) depth) as [e|];
      [|discriminate].
    unfold Stockfish.bind at 1.
    destruct (chessMove chess move) as [chess'|]; cbn; [|discriminate].
    intros Hrun. apply IH in Hrun as (new & -> & Hlen & Hply).
    eexists (_ :: new). rewrite <- app_assoc. split; [reflexivity|].
    split; [cbn; by rewrite Hlen|].
    intros [|k] r Hk.
    + injection Hk as <-. cbn. f_equal. lia.
    + cbn in Hk. rewrite (Hply k r Hk). lia.
Qed.

Lemma analyzeGame_numbers_plies pgn userColor depth log log' results :
  Stockfish.analyzeGame Chess initial loadPgn chessFen chessMove answer
    pgn userColor depth log = (log', Some results) ->
  forall i r, results !! i = Some r -> Stockfish.ply r = Z.of_nat i + 1.
Proof.
  unfold Stockfish.analyzeGame, Stockfish.bind.
  destruct (loadPgn pgn) as [moves|]; cbn; [|discriminate].
  intros Hrun i r Hr.
  apply replay_appends in Hrun as (new & -> & _ & Hply).
  by apply Hply.
Qed.

End Replay.

Lemma rem2_odd (p : Z) : 0 <= p -> (Z.rem p 2 =? 1) = Z.odd p.
Proof.
  intros Hp. rewrite Z.rem_mod_nonneg by lia.
  rewrite Zmod_odd. by destruct (Z.odd p).
Qed.

(** C2.  For every game [analyzeGame] has replayed and every index [i], the
    record stored for ply [i + 1] holds the centipawn value of that ply's
    evaluation as [eval_before], that of the next ply as [eval_after] (its
    own when there is no next ply), and a [cp_loss] of
    [max 0 (eval_before - eval_after)] on an odd ply (a White move) and of
    [max 0 (eval_after - eval_before)] on an even one; so [cp_loss] is never
    negative. *)
Theorem cp_loss_is_clamped_loss
    (Chess : Type) (initial : Chess)
    (loadPgn : string -> option (list Stockfish.Move))
    (chessFen : Chess -> string)
    (chessMove : Chess -> Stockfish.Move -> option Chess)
    (answer : nat -> string -> Z -> option StockfishEval)
    (pgn : string) (userColor : Stockfish.Color) (depth : Z)
    (log log' : list (string * Z)) (results : list Stockfish.PlyResult)
    (id : string) (i : nat) (m : MoveAnalysis) :
  Stockfish.analyzeGame Chess initial loadPgn chessFen chessMove answer
    pgn userColor depth log = (log', Some results) ->
  AnalysisRoute.analyzeMoves id results !! i = Some m ->
  ply m = Z.of_nat i + 1
  /\ (exists current,
        results !! i = Some current
        /\ eval_before m
           = AnalysisRoute.centipawns (Stockfish.evaluation current))
  /\ eval_after m
     = match results !! (i + 1)%nat with
       | Some next => AnalysisRoute.centipawns (Stockfish.evaluation next)
       | None => eval_before m
       end
  /\ cp_loss m
     = (if Z.odd (ply m) then Z.max 0 (eval_before m - eval_after m)
        else Z.max 0 (eval_after m - eval_before m))
  /\ 0 <= cp_loss m.
Proof.
  intros Hgame Hm.
  apply list_lookup_imap_Some in Hm as (current & Hcur & ->).
  pose proof (analyzeGame_numbers_plies _ _ _ _ _ _ _ _ _ _ _ _
                Hgame i current Hcur) as Hply.
  unfold AnalysisRoute.analyzePly; cbn.
  rewrite rem2_odd by lia.
  split; [done|]. split; [by exists current|]. split; [done|].
  split; [|lia].
  by destruct (Z.odd (Stockfish.ply current)).
Qed.

Lemma cp_loss_is_clamped_loss_witness :
  exists results m,
    Samples.analyzeGame "1. f3 e5 2. g4 Qh4# 0-1" Stockfish.white 12 []
      = ([(Samples.whiteToMove, 12); (Samples.blackToMove, 12);
          (Samples.whiteToMove, 12); (Samples.blackToMove, 12)],
         Some results)
    /\ AnalysisRoute.analyzeMoves "g1" results !! 0%nat = Some m
    /\ ply m = 1 /\ cp_loss m = 60 /\ 0 <= cp_loss m.
Proof.
  eexists _, _.
  assert (Hgame : Samples.analyzeGame "1. f3 e5 2. g4 Qh4# 0-1"
                    Stockfish.white 12 []
                  = ([(Samples.whiteToMove, 12); (Samples.blackToMove, 12);
                      (Samples.whiteToMove, 12); (Samples.blackToMove, 12)],
                     Some _)) by (vm_compute; reflexivity).
  split; [exact Hgame|].
  split; [reflexivity|].
  split; [reflexivity|]. split; [reflexivity|].
  eapply (cp_loss_is_clamped_loss nat 0%nat Samples.loadPgn Samples.chessFen
            Samples.chessMove Samples.answer "1. f3 e5 2. g4 Qh4# 0-1"
            Stockfish.white 12 [] _ _ "g1" 0%nat _ Hgame).
  reflexivity.
Defined.

(** ** Mate scores *)

Lemma analyzePly_reads_centipawns id rs rs' i a b :
  Forall2 AnalysisRoute.sameForAnalysis rs rs' ->
  AnalysisRoute.sameForAnalysis a b ->
  AnalysisRoute.analyzePly id rs i a = AnalysisRoute.analyzePly id rs' i b.
Proof.
  intros Hall (Hply & Hnum & Hfen & Hsan & Huci & Huser & Hbest & Hcp).
  unfold AnalysisRoute.analyzePly, AnalysisRoute.isBestMove.
  rewrite Hply, Hnum, Hfen, Hsan, Huci, Huser, Hbest, Hcp.
  assert (Hnext :
    match rs !! (i + 1)%nat with
    | Some n => AnalysisRoute.centipawns (Stockfish.evaluation n)
    | None => AnalysisRoute.centipawns (Stockfish.evaluation b)
    end
    = match rs' !! (i + 1)%nat with
      | Some n => AnalysisRoute.centipawns (Stockfish.evaluation n)
      | None => AnalysisRoute.centipawns (Stockfish.evaluation b)
      end).
  { destruct (rs !! (i + 1)%nat) as [n|] eqn:Hn.
    - destruct (Forall2_lookup_l _ _ _ _ _ Hall Hn) as (n' & -> & Hsame).
      apply Hsame.
    - apply lookup_ge_None in Hn.
      rewrite (Forall2_length _ _ _ Hall) in Hn.
      apply lookup_ge_None in Hn. by rewrite Hn. }
  by rewrite Hnext.
Qed.

(** C3.  In the record the loop builds for the result at index [i],
    [eval_before] is [m * 10000] when the evaluation of that result is a
    mate with signed mate count [m] and its value unchanged when it is a
    centipawn score; [eval_after] is the same conversion of the evaluation
    of the next result, and [eval_before] when there is none; [cp_loss] and
    the arguments of [classifyMove] are computed from these two numbers.
    Nothing after the conversion looks at the kind of an evaluation: two
    lists of results that agree on the converted values (and on every field
    but the evaluation's kind, value and variation) yield the same
    records. *)
Theorem mate_becomes_centipawns
    (id : string) (results results' : list Stockfish.PlyResult)
    (i : nat) (current : Stockfish.PlyResult) :
  results !! i = Some current ->
  exists m,
    AnalysisRoute.analyzeMoves id results !! i = Some m
    /\ (type (Stockfish.evaluation current) = mate ->
        eval_before m = value (Stockfish.evaluation current) * 10000)
    /\ (type (Stockfish.evaluation current) = cp ->
        eval_before m = value (Stockfish.evaluation current))
    /\ (forall next,
          results !! (i + 1)%nat = Some next ->
          (type (Stockfish.evaluation next) = mate ->
           eval_after m = value (Stockfish.evaluation next) * 10000)
          /\ (type (Stockfish.evaluation next) = cp ->
              eval_after m = value (Stockfish.evaluation next)))
    /\ (results !! (i + 1)%nat = None -> eval_after m = eval_before m)
    /\ cp_loss m
       = Z.max 0 (if Z.rem (Stockfish.ply current) 2 =? 1
                  then eval_before m - eval_after m
                  else eval_after m - eval_before m)
    /\ classification m
       = Analyzer.classifyMove (cp_loss m)
           (AnalysisRoute.isBestMove current)
           (eval_before m) (eval_after m)
           (Z.rem (Stockfish.ply current) 2 =? 1)
    /\ (Forall2 AnalysisRoute.sameForAnalysis results results' ->
        AnalysisRoute.analyzeMoves id results
        = AnalysisRoute.analyzeMoves id results').
Proof.
  intros Hcur. eexists. unfold AnalysisRoute.analyzeMoves at 1.
  rewrite list_lookup_imap, Hcur.
  split; [reflexivity|].
  unfold AnalysisRoute.analyzePly, AnalysisRoute.centipawns.
  cbn [eval_before eval_after cp_loss classification].
  split; [by intros ->|]. split; [by intros ->|].
  split; [intros next ->; split; by intros ->|].
  split; [by intros ->|].
  split; [reflexivity|]. split; [reflexivity|].
  intros Hall. unfold AnalysisRoute.analyzeMoves.
  apply list_eq; intros j. rewrite !list_lookup_imap.
  destruct (results !! j) as [a|] eqn:Ha.
  - destruct (Forall2_lookup_l _ _ _ _ _ Hall Ha) as (b & -> & Hsame).
    cbn. f_equal. by apply analyzePly_reads_centipawns.
  - apply lookup_ge_None in Ha. rewrite (Forall2_length _ _ _ Hall) in Ha.
    apply lookup_ge_None in Ha. by rewrite Ha.
Qed.

Lemma mate_becomes_centipawns_witness :
  exists m,
    AnalysisRoute.analyzeMoves "g1" Samples.threePlies !! 1%nat = Some m
    /\ eval_before m = 35
    /\ eval_after m = 2 * 10000
    /\ cp_loss m = Z.max 0 (eval_after m - eval_before m)
    /\ classification m
       = Analyzer.classifyMove (cp_loss m) false
           (eval_before m) (eval_after m) false
    /\ AnalysisRoute.analyzeMoves "g1" Samples.threePlies
       = AnalysisRoute.analyzeMoves "g1" Samples.threePliesCp.
Proof.
  destruct (mate_becomes_centipawns "g1"
              Samples.threePlies Samples.threePliesCp 1
              (Samples.plyResult 2 "e7e5" (mkEval cp 35 "c7c5" ["c7c5"]))
              eq_refl)
    as (m & Hm & _ & Hcp & Hnext & _ & Hloss & Hclass & Hsame).
  exists m. split; [exact Hm|].
  split; [exact (Hcp eq_refl)|].
  split.
  { exact (proj1 (Hnext (Samples.plyResult 3 "d1h5"
                           (mkEval mate 2 "g1f3" ["g1f3"])) eq_refl)
                 eq_refl). }
  split; [exact Hloss|]. split; [exact Hclass|].
  apply Hsame. repeat constructor.
Defined.

(** ** The last ply *)

Lemma classifyMove_no_loss isBestMove evalBefore isWhite :
  Analyzer.classifyMove 0 isBestMove evalBefore evalBefore isWhite
  = if isBestMove then best else excellent.
Proof.
  unfold Analyzer.classifyMove. cbn.
  rewrite Z.sub_diag. by destruct isBestMove, isWhite.
Qed.

(** C10.  The record of the last ply of an analyzed game has [eval_after]
    equal to [eval_before] and a [cp_loss] of 0, and is classified [best]
    when the played move is the engine's best move and [excellent]
    otherwise: never blunder, mistake, inaccuracy, good, great or
    brilliant. *)
Theorem last_ply_best_or_excellent
    (id : string) (results : list Stockfish.PlyResult)
    (current : Stockfish.PlyResult) :
  last results = Some current ->
  exists m,
    last (AnalysisRoute.analyzeMoves id results) = Some m
    /\ eval_after m = eval_before m
    /\ cp_loss m = 0
    /\ classification m
       = (if AnalysisRoute.isBestMove current then best else excellent)
    /\ classification m
       ∉ [blunder; mistake; inaccuracy; good; great; brilliant].
Proof.
  intros Hlast. rewrite last_lookup in Hlast.
  assert (Hlen : (0 < length results)%nat).
  { apply lookup_lt_Some in Hlast. lia. }
  eexists. unfold AnalysisRoute.analyzeMoves.
  rewrite last_lookup, length_imap, list_lookup_imap, Hlast.
  split; [reflexivity|].
  unfold AnalysisRoute.analyzePly.
  replace (results !! (Nat.pred (length results) + 1)%nat) with
    (@None Stockfish.PlyResult)
    by (symmetry; apply lookup_ge_None; lia).
  cbn.
  assert (Hloss : forall b : bool,
    Z.max 0 (if b then AnalysisRoute.centipawns (Stockfish.evaluation current)
                       - AnalysisRoute.centipawns (Stockfish.evaluation current)
             else AnalysisRoute.centipawns (Stockfish.evaluation current)
                  - AnalysisRoute.centipawns (Stockfish.evaluation current))
    = 0) by (intros []; lia).
  rewrite Hloss, classifyMove_no_loss.
  split; [done|]. split; [done|]. split; [done|].
  destruct (AnalysisRoute.isBestMove current);
    rewrite !elem_of_cons, elem_of_nil; intros H;
    repeat destruct H as [H|H]; done.
Qed.

Lemma last_ply_best_or_excellent_witness :
  exists m,
    last (AnalysisRoute.analyzeMoves "g1" Samples.threePlies) = Some m
    /\ eval_after m = eval_before m
    /\ cp_loss m = 0
    /\ classification m = excellent
    /\ classification m
       ∉ [blunder; mistake; inaccuracy; good; great; brilliant].
Proof.
  apply (last_ply_best_or_excellent "g1" Samples.threePlies
           (Samples.plyResult 3 "d1h5" (mkEval mate 2 "g1f3" ["g1f3"]))).
  reflexivity.
Defined.

(** ** Invalid move text *)

(** C9.  When chess.js rejects the move text ([loadPgn] throws),
    [analyzeGame] throws as well, no evaluation request has been issued to
    the pool, and no list of records is returned. *)
Theorem analyzeGame_rejects_before_evaluating
    (Chess : Type) (initial : Chess)
    (loadPgn : string -> option (list Stockfish.Move))
    (chessFen : Chess -> string)
    (chessMove : Chess -> Stockfish.Move -> option Chess)
    (answer : nat -> string -> Z -> option StockfishEval)
    (pgn : string) (userColor : Stockfish.Color) (depth : Z)
    (log : list (string * Z)) :
  loadPgn pgn = None ->
  Stockfish.analyzeGame Chess initial loadPgn chessFen chessMove answer
    pgn userColor depth log = (log, None).
Proof.
  intros Hthrows.
  unfold Stockfish.analyzeGame, Stockfish.bind. by rewrite Hthrows.
Qed.

Lemma analyzeGame_rejects_before_evaluating_witness :
  Samples.loadPgn "1. e4 Ke3 2. ??" = None
  /\ Samples.analyzeGame "1. e4 Ke3 2. ??" Stockfish.black 12 [] = ([], None).
Proof.
  split; [reflexivity|].
  apply (analyzeGame_rejects_before_evaluating nat 0%nat Samples.loadPgn
           Samples.chessFen Samples.chessMove Samples.answer
           "1. e4 Ke3 2. ??" Stockfish.black 12 []).
  reflexivity.
Defined.

(** ** Parsing the engine's output *)

Section Scanning.

Import Parser.

Variables (fen : string) (depth : Z).

Lemma prefix_cons a p b s :
  String.prefix (String a p) (String b s)
  = if ascii_dec a b then String.prefix p s else false.
Proof. reflexivity. Qed.

Lemma bestmove_not_info line :
  isBestmoveLine line = true -> isInfoLine line = false.
Proof.
  unfold isBestmoveLine, isInfoLine, JS.startsWith.
  destruct line as [|a line]; [done|].
  rewrite !prefix_cons.
  destruct (ascii_dec "b" a) as [<-|]; [|discriminate].
  intros _. by destruct (ascii_dec "i" "b").
Qed.

Lemma infoBlock_not_qualifying line st :
  qualifies depth line = false -> infoBlock fen depth line st = st.
Proof.
  unfold qualifies, infoBlock, isInfoLine, reportedDepth.
  destruct (JS.startsWith "info depth" line); [|done].
  rewrite Z.geb_leb.
  destruct (depth - 2 <=? _); [|done].
  destruct (Regex.matchScore line) as [[kind num]|]; [|done].
  rewrite !andb_true_l, bool_decide_eq_false. intros []. by eexists.
Qed.

Lemma bestmoveBlock_other line st :
  isBestmoveLine line = false -> bestmoveBlock line st = st.
Proof. unfold isBestmoveLine, bestmoveBlock. by intros ->. Qed.

Lemma lineStep_quiet line st :
  isBestmoveLine line = false -> qualifies depth line = false ->
  lineStep fen depth st line = st.
Proof.
  intros Hbm Hq. unfold lineStep. destruct (threw st); [done|].
  by rewrite infoBlock_not_qualifying, bestmoveBlock_other.
Qed.

Lemma scanLines_quiet lines st :
  Forall (fun l => isBestmoveLine l = false /\ qualifies depth l = false)
         lines ->
  scanLines fen depth st lines = st.
Proof.
  unfold scanLines. induction 1 as [|l lines [Hbm Hq] _ IH]; [done|].
  cbn. by rewrite lineStep_quiet.
Qed.




(** The promise is settled by a best-move line only, and every such line
    calls [cleanup()]. *)
Lemma lineStep_unsettled st line :
  (cleanups st = 0%nat -> settlement st = Unsettled) ->
  cleanups (lineStep fen depth st line) = 0%nat ->
  settlement (lineStep fen depth st line) = Unsettled.
Proof.
  intros Hinv. unfold lineStep. destruct (threw st); [done|].
  assert (Hinfo : cleanups (infoBlock fen depth line st) = cleanups st
                  /\ (cleanups st = 0%nat ->
                      settlement (infoBlock fen depth line st)
                      = Unsettled)).
  { unfold infoBlock.
    repeat match goal with
           | |- context [if ?b then _ else _] => destruct b
           | |- context [match ?o with Some _ => _ | None => _ end] =>
               destruct o as [[??]|]
           end; try done.
    all: split; [done|]; intros Hc; unfold assignEvaluation; cbn;
      by rewrite (Hinv Hc). }
  destruct Hinfo as [Hc Hs]. unfold bestmoveBlock.
  destruct (JS.startsWith "bestmove" line).
  - destruct (JS.split space line !! 1%nat).
    + by destruct (evaluation (infoBlock fen depth line st)).
    + cbn. rewrite Hc. apply Hs.
  - rewrite Hc. apply Hs.
Qed.

Lemma scanLines_unsettled lines :
  forall st,
    (cleanups st = 0%nat -> settlement st = Unsettled) ->
    cleanups (scanLines fen depth st lines) = 0%nat ->
    settlement (scanLines fen depth st lines) = Unsettled.
Proof.
  unfold scanLines. induction lines as [|l lines IH]; intros st Hinv;
    [done|].
  cbn. apply IH. by apply lineStep_unsettled.
Qed.


End Scanning.




(** C5 fails on the code: a score line without a variation leaves [pv]
    empty, and the best-move line attaches the move to [bestMove] only. *)
Theorem resolved_variation_can_be_empty :
  Parser.resolvedValue
    (Parser.feed Samples.whiteToMove 10 Parser.freshClosure
       ["info depth 10 score cp 20" +:+ Samples.nl
        +:+ "bestmove e2e4" +:+ Samples.nl]).2
  = Some {| type := cp; value := 20; bestMove := "e2e4"; pv := [] |}
  /\ Parser.resolvedValue
       (Parser.feed Samples.whiteToMove 10 Parser.freshClosure
          ["bestmove e2e4" +:+ Samples.nl]).2
     = Some {| type := cp; value := 0; bestMove := "e2e4";
               pv := ["e2e4"] |}.
Proof. split; reflexivity. Qed.

(** ** The running best evaluation *)

Section RunningBest.

Import Parser.

Variables (fen : string) (depth : Z).

Lemma info_not_bestmove line :
  isInfoLine line = true -> isBestmoveLine line = false.
Proof.
  intros Hinfo. destruct (isBestmoveLine line) eqn:Hbm; [|done].
  apply bestmove_not_info in Hbm. congruence.
Qed.

(** A best-move line touches the field [bestMove] only. *)
Lemma bestmoveBlock_score line st :
  score <$> evaluation (bestmoveBlock line st) = score <$> evaluation st.
Proof.
  unfold bestmoveBlock.
  destruct (JS.startsWith "bestmove" line); [|done].
  destruct (JS.split space line !! 1%nat); [|done].
  by destruct (evaluation st).
Qed.

Lemma lineStep_score line st :
  qualifies depth line = false ->
  score <$> evaluation (lineStep fen depth st line)
  = score <$> evaluation st.
Proof.
  intros Hq. unfold lineStep. destruct (threw st); [done|].
  by rewrite bestmoveBlock_score, infoBlock_not_qualifying.
Qed.

Lemma scanLines_score lines :
  forall st,
    Forall (fun l => qualifies depth l = false) lines ->
    score <$> evaluation (scanLines fen depth st lines)
    = score <$> evaluation st.
Proof.
  unfold scanLines. induction lines as [|l lines IH]; intros st Hall;
    [done|].
  apply Forall_cons in Hall as [Hq Hall]. cbn.
  by rewrite IH, lineStep_score.
Qed.

Lemma leftmost_skip {A} (anchored : string -> option A) a s :
  anchored (String a s) = None ->
  Regex.leftmost anchored (String a s) = Regex.leftmost anchored s.
Proof. intros H. destruct s; cbn; by rewrite H. Qed.

Lemma isBlackTurn_field :
  isBlackTurn fen = true <-> JS.split space fen !! 1%nat = Some "b"%string.
Proof.
  unfold isBlackTurn.
  destruct (JS.split space fen !! 1%nat) as [field|]; [|done].
  rewrite String.eqb_eq. split; congruence.
Qed.

Lemma qualifying_line_sets_score line st kind num :
  threw st = false ->
  qualifies depth line = true ->
  Regex.matchScore line = Some (kind, num) ->
  exists e,
    evaluation (lineStep fen depth st line) = Some e
    /\ type e = kind
    /\ value e
       = if isBlackTurn fen then - JS.parseInt num else JS.parseInt num.
Proof.
  intros Hthrew Hq Hscore. unfold qualifies in Hq.
  apply andb_true_iff in Hq as [Hq _].
  apply andb_true_iff in Hq as [Hinfo Hdepth].
  unfold lineStep. rewrite Hthrew.
  rewrite (bestmoveBlock_other _ _ (info_not_bestmove _ Hinfo)).
  unfold infoBlock. unfold isInfoLine in Hinfo. rewrite Hinfo.
  unfold reportedDepth in Hdepth. rewrite Z.geb_leb, Hdepth, Hscore.
  eexists. by split.
Qed.

Lemma spanDigits_numeral d rest :
  JS.isNumeral d = true -> JS.startsWithDigit rest = false ->
  JS.spanDigits (String.append d rest) = (d, rest).
Proof.
  intros Hd Hrest. induction d as [|a d IH]; [done|].
  assert (Ha : JS.isDigit a = true /\ (d = EmptyString \/ JS.isNumeral d = true)).
  { cbn [JS.isNumeral] in Hd. destruct d; [by auto|].
    apply andb_true_iff in Hd as [? ?]. by auto. }
  destruct Ha as [Ha Hd'].
  change (JS.spanDigits (String a d +:+ rest))
    with (if JS.isDigit a
          then let '(ds, r) := JS.spanDigits (d +:+ rest) in
               (String a ds, r)
          else (EmptyString, String a (d +:+ rest))).
  rewrite Ha. destruct Hd' as [->|Hd'].
  - change (EmptyString +:+ rest) with rest.
    destruct rest as [|r rest]; [done|].
    cbn in Hrest. cbn [JS.spanDigits]. by rewrite Hrest.
  - by rewrite (IH Hd').
Qed.

(** The depth [reportedDepth] reads is the number that follows
    [info depth]. *)
Lemma reportedDepth_info_line d rest :
  JS.isNumeral d = true -> JS.startsWithDigit rest = false ->
  isInfoLine ("info depth " +:+ d +:+ rest) = true
  /\ reportedDepth ("info depth " +:+ d +:+ rest) = JS.parseInt d.
Proof.
  intros Hd Hrest. split; [done|].
  unfold reportedDepth, Regex.matchDepth.
  change ("info depth " +:+ d +:+ rest)
    with (String "i" (String "n" (String "f" (String "o" (String " "
            ("depth " +:+ d +:+ rest)))))).
  do 5 (rewrite leftmost_skip; [|done]).
  unfold Regex.leftmost.
  destruct ("depth " +:+ d +:+ rest) eqn:E; [done|].
  rewrite <- E. clear E.
  assert (Hat : Regex.depthAt ("depth " +:+ d +:+ rest) = Some d).
  { unfold Regex.depthAt.
    change (Regex.stripPrefix "depth " ("depth " +:+ d +:+ rest))
      with (Some (d +:+ rest)).
    unfold Regex.digits1.
    rewrite (spanDigits_numeral d rest Hd Hrest).
    by destruct d. }
  by rewrite Hat.
Qed.

End RunningBest.

(** C6 as stated fails on the code: the last piece of the accumulated
    output is scanned like every other, whether or not its newline has
    arrived. *)
Lemma unterminated_line_updates_evaluation :
  ~ Parser.updatedOnlyByCompleteLines Samples.whiteToMove 10
      Parser.freshClosure "info depth 10 score cp 5".
Proof.
  unfold Parser.updatedOnlyByCompleteLines. intros Hclaim.
  destruct Hclaim as (line & Hin & _); [discriminate|].
  vm_compute in Hin. by apply elem_of_nil in Hin.
Qed.

(** C6, amended.  A chunk changes the type, value or variation of the
    running best evaluation only if some piece of the accumulated output
    between newlines - the unterminated last one included - is a
    search-progress line that reports a depth of at least [depth - 2] and
    carries a score token; a search-progress line that reports a smaller
    depth changes nothing; and the value such a line sets is the reported
    one, negated exactly when the second field of the FEN is ["b"]. *)
Theorem evaluation_updated_by_qualifying_pieces
    (fen : string) (depth : Z) (c : Parser.Closure) (data : string)
    (st : Parser.Scan) (line : string) (kind : EvalType) (num : string) :
  (Parser.score <$> Parser.running (Parser.onData fen depth c data).1
   <> Parser.score <$> Parser.running c ->
   exists piece,
     piece ∈ JS.split Parser.newline (String.append (Parser.output c) data)
     /\ Parser.qualifies depth piece = true)
  /\ (Parser.isInfoLine line = true ->
      Parser.reportedDepth line < depth - 2 ->
      Parser.lineStep fen depth st line = st)
  /\ (Parser.threw st = false ->
      Parser.qualifies depth line = true ->
      Regex.matchScore line = Some (kind, num) ->
      exists e,
        Parser.evaluation (Parser.lineStep fen depth st line) = Some e
        /\ type e = kind
        /\ value e
           = if decide (JS.split Parser.space fen !! 1%nat = Some "b"%string)
             then - JS.parseInt num else JS.parseInt num).
Proof.
  split; [|split].
  - intros Hchanged.
    set (lines := JS.split Parser.newline
                    (String.append (Parser.output c) data)).
    destruct (decide (Exists (fun l => Parser.qualifies depth l = true)
                             lines)) as [Hex|Hnone].
    + apply Exists_exists in Hex as (piece & Hin & Hq). by exists piece.
    + exfalso. apply Hchanged. unfold Parser.onData. cbn.
      apply scanLines_score.
      apply Forall_forall. intros l Hl.
      destruct (Parser.qualifies depth l) eqn:Hq; [|done].
      exfalso. apply Hnone, Exists_exists. by exists l.
  - intros Hinfo Hdepth. apply lineStep_quiet.
    + by apply info_not_bestmove.
    + unfold Parser.qualifies. rewrite Hinfo.
      by rewrite (proj2 (Z.leb_gt _ _) Hdepth).
  - intros Hthrew Hq Hscore.
    destruct (qualifying_line_sets_score fen depth line st kind num
                Hthrew Hq Hscore) as (e & He & Hty & Hval).
    exists e. split; [done|]. split; [done|]. rewrite Hval.
    destruct (Parser.isBlackTurn fen) eqn:Hb.
    + apply isBlackTurn_field in Hb. by rewrite decide_True.
    + rewrite decide_False; [done|].
      intros Hf. apply isBlackTurn_field in Hf. congruence.
Qed.

Lemma evaluation_updated_by_qualifying_pieces_witness :
  (exists piece,
     piece ∈ JS.split Parser.newline
               ("" +:+ "info depth 10 score cp 5" +:+ Samples.nl)
     /\ Parser.qualifies 10 piece = true)
  /\ Parser.lineStep Samples.blackToMove 10
       (Parser.mkScan None Parser.Unsettled 0 false)
       "info depth 7 score cp 99 pv e7e5"
     = Parser.mkScan None Parser.Unsettled 0 false
  /\ (exists e,
        Parser.evaluation
          (Parser.lineStep Samples.blackToMove 10
             (Parser.mkScan None Parser.Unsettled 0 false)
             "info depth 8 score cp 25 pv e7e5") = Some e
        /\ type e = cp /\ value e = -25).
Proof.
  pose proof (evaluation_updated_by_qualifying_pieces
                Samples.blackToMove 10 Parser.freshClosure
                ("info depth 10 score cp 5" +:+ Samples.nl)
                (Parser.mkScan None Parser.Unsettled 0 false)
                "info depth 7 score cp 99 pv e7e5" cp "99")
    as (Hchunk & Hbelow & _).
  pose proof (evaluation_updated_by_qualifying_pieces
                Samples.blackToMove 10 Parser.freshClosure ""
                (Parser.mkScan None Parser.Unsettled 0 false)
                "info depth 8 score cp 25 pv e7e5" cp "25")
    as (_ & _ & Hsign).
  split; [|split].
  - apply Hchunk. discriminate.
  - apply Hbelow; [reflexivity|]. vm_compute. reflexivity.
  - apply Hsign; reflexivity.
Defined.

(** ** Dispatch *)

(** C7.  [evaluate] on an initialized pool hands the request to the first
    instance in pool order that is not busy, which starts it at once (the
    instance becomes busy, the request is in flight and its two commands
    are written to the engine); when every instance is busy the request is
    appended to the queue of instance 0, whatever the queues of the other
    instances hold. *)
Theorem evaluate_dispatches_or_queues_on_first
    (pool : Pool.StockfishPool) (fen : string) (depth : Z) :
  let req := Pool.mkRequest (Pool.nextId pool) fen depth in
  (forall k inst,
      Pool.instances pool !! k = Some inst ->
      Pool.busy inst = false ->
      (forall j other,
          (j < k)%nat -> Pool.instances pool !! j = Some other ->
          Pool.busy other = true) ->
      Pool.instances (Pool.evaluate pool fen depth)
      = <[k := Pool.runEvaluation inst req]> (Pool.instances pool)
      /\ Pool.busy (Pool.runEvaluation inst req) = true
      /\ Pool.inFlight (Pool.runEvaluation inst req)
         = Pool.inFlight inst ++ [req]
      /\ Pool.queue (Pool.runEvaluation inst req) = Pool.queue inst
      /\ Pool.stdin (Pool.runEvaluation inst req)
         = Pool.stdin inst ++ [Pool.PositionFen fen; Pool.GoDepth depth])
  /\ (forall first others,
        Pool.instances pool = first :: others ->
        Forall (fun inst => Pool.busy inst = true) (Pool.instances pool) ->
        Pool.instances (Pool.evaluate pool fen depth)
        = Pool.mkInstance true (Pool.queue first ++ [req])
                          (Pool.listeners first) (Pool.stdin first)
          :: others).
Proof.
  intros req. split.
  - intros k inst Hk Hfree Hbefore.
    assert (Hfind : list_find (fun i => Pool.busy i = false)
                              (Pool.instances pool) = Some (k, inst)).
    { apply list_find_Some. split; [done|]. split; [done|].
      intros j other Hj Hlt Hother.
      rewrite (Hbefore j other Hlt Hj) in Hother. discriminate. }
    split.
    + unfold Pool.evaluate. by rewrite Hfind, Hk, Hfree.
    + unfold Pool.runEvaluation, Pool.inFlight. cbn.
      by rewrite fmap_app.
  - intros first others Hpool Hall.
    assert (Hfind : list_find (fun i => Pool.busy i = false)
                              (Pool.instances pool) = None).
    { apply list_find_None. eapply Forall_impl; [exact Hall|].
      cbn. intros inst ->. discriminate. }
    unfold Pool.evaluate. rewrite Hfind, Hpool. cbn.
    rewrite Hpool in Hall. apply Forall_cons in Hall as [-> _]. done.
Qed.

Lemma evaluate_dispatches_or_queues_on_first_witness :
  Pool.instances
    (Pool.evaluate
       (Pool.evaluate (Pool.initialized 2) Samples.whiteToMove 12)
       Samples.blackToMove 12)
  = [ Pool.runEvaluation Pool.idle
        (Pool.mkRequest 0 Samples.whiteToMove 12);
      Pool.runEvaluation Pool.idle
        (Pool.mkRequest 1 Samples.blackToMove 12) ]
  /\ Pool.queue <$> Pool.instances Samples.fourRequests
     = [ [Pool.mkRequest 2 Samples.whiteToMove 12;
          Pool.mkRequest 3 Samples.blackToMove 12]; [] ].
Proof.
  split.
  - apply (proj1 (evaluate_dispatches_or_queues_on_first
                    (Pool.evaluate (Pool.initialized 2)
                       Samples.whiteToMove 12)
                    Samples.blackToMove 12) 1%nat Pool.idle).
    + reflexivity.
    + reflexivity.
    + intros [|j] other Hlt Hother; [|lia].
      by injection Hother as <-.
  - unfold Samples.fourRequests.
    rewrite (proj2 (evaluate_dispatches_or_queues_on_first
                      (Pool.evaluate
                         (Pool.evaluate
                            (Pool.evaluate (Pool.initialized 2)
                               Samples.whiteToMove 12)
                            Samples.blackToMove 12)
                         Samples.whiteToMove 12)
                      Samples.blackToMove 12) _ _ eq_refl).
    + reflexivity.
    + repeat constructor.
Defined.

(** ** One request at a time *)

(** Where the flow is the intended one, [cleanup] frees the instance and
    starts the head of its queue: with one request in flight it leaves at
    most one in flight. *)
Lemma cleanup_dispatches_head (l : Pool.Listener) (inst : Pool.StockfishInstance) :
  Pool.listeners inst = [l] ->
  Pool.cleanup (Pool.req_id (Pool.request l)) inst
  = match Pool.queue inst with
    | [] => Pool.mkInstance false [] [] (Pool.stdin inst)
    | next :: rest =>
        Pool.mkInstance true rest
          [Pool.mkListener next Parser.freshClosure]
          (Pool.stdin inst ++ [Pool.PositionFen (Pool.req_fen next);
                               Pool.GoDepth (Pool.req_depth next)])
    end.
Proof.
  intros Hl. unfold Pool.cleanup. rewrite Hl. cbn.
  rewrite decide_False by (intros H; by apply H).
  by destruct (Pool.queue inst).
Qed.

(** The timer of the request in flight does the same and rejects the
    request. *)
Lemma timeout_frees_instance (pool : Pool.StockfishPool) (k : nat)
    (inst : Pool.StockfishInstance) (l : Pool.Listener) :
  Pool.instances pool !! k = Some inst ->
  Pool.listeners inst = [l] ->
  Pool.timeout pool k (Pool.req_id (Pool.request l))
  = Pool.mkPool
      (<[k := Pool.cleanup (Pool.req_id (Pool.request l)) inst]>
         (Pool.instances pool))
      (Pool.settled pool
       ++ [(Pool.req_id (Pool.request l),
            Pool.Rejected "Evaluation timeout")])
      (Pool.nextId pool).
Proof.
  intros Hk Hl. unfold Pool.timeout, Pool.inFlight. rewrite Hk, Hl. cbn.
  rewrite bool_decide_eq_true_2; [done|]. apply list_elem_of_singleton.
  done.
Qed.

(** The intended flow on [Samples.fourRequests]: one best-move line
    resolves request 0 and starts request 2, request 3 stays queued. *)
Lemma one_bestmove_starts_next_request :
  let pool :=
    Pool.stdoutData Samples.fourRequests 0
      ("info depth 12 score cp 31 pv e2e4 e7e5" +:+ Samples.nl
       +:+ "bestmove e2e4 ponder e7e5" +:+ Samples.nl) in
  Pool.inFlight <$> Pool.instances pool !! 0%nat
  = Some [Pool.mkRequest 2 Samples.whiteToMove 12]
  /\ Pool.queue <$> Pool.instances pool !! 0%nat
     = Some [Pool.mkRequest 3 Samples.blackToMove 12]
  /\ Pool.settled pool
     = [(0%nat, Pool.Resolved (mkEval cp 31 "e2e4" ["e2e4"; "e7e5"]))].
Proof. vm_compute. repeat split. Qed.

(** C8 fails on the code: the loop over the lines goes on after a
    best-move line, so a chunk with two such lines calls [cleanup()]
    twice; the second call frees the instance although the request the
    first call has started is running, and starts the next one beside it.
    From the pool of [Samples.fourRequests], requests 2 and 3 end up in
    flight together on the first instance, each with its commands written
    to the same engine. *)
Theorem two_bestmoves_start_two_requests :
  let pool := Pool.stdoutData Samples.fourRequests 0 Samples.twoBestmoves in
  Pool.inFlight <$> Pool.instances Samples.fourRequests !! 0%nat
  = Some [Pool.mkRequest 0 Samples.whiteToMove 12]
  /\ Pool.inFlight <$> Pool.instances pool !! 0%nat
     = Some [Pool.mkRequest 2 Samples.whiteToMove 12;
             Pool.mkRequest 3 Samples.blackToMove 12]
  /\ Pool.queue <$> Pool.instances pool !! 0%nat = Some []
  /\ Pool.settled pool
     = [(0%nat, Pool.Resolved (mkEval cp 0 "e2e4" ["e2e4"]))].
Proof. vm_compute. repeat split. Qed.

(* ===================================================================== *)
(** * Further properties *)
(* ===================================================================== *)

(** ** The scan of the engine's output *)

Section ScanFacts.

Import Parser.

Variables (fen : string) (depth : Z).

(** An info block never calls [cleanup()], never throws and never settles
    a pending promise. *)
Lemma infoBlock_effects line st :
  cleanups (infoBlock fen depth line st) = cleanups st
  /\ threw (infoBlock fen depth line st) = threw st
  /\ (settlement st = Unsettled ->
      settlement (infoBlock fen depth line st) = Unsettled).
Proof.
  unfold infoBlock.
  repeat match goal with
         | |- context [if ?b then _ else _] => destruct b
         | |- context [match ?o with Some _ => _ | None => _ end] =>
             destruct o as [[??]|]
         end; try done.
  all: split; [done|]; split; [done|]; intros Hs;
    unfold assignEvaluation; cbn; by rewrite Hs.
Qed.

Lemma lineStep_no_bestmove line st :
  threw st = false -> isBestmoveLine line = false ->
  lineStep fen depth st line = infoBlock fen depth line st.
Proof.
  intros Ht Hbm. unfold lineStep. rewrite Ht.
  by apply bestmoveBlock_other.
Qed.

(** Lines that are not best-move lines leave the promise pending. *)
Lemma scanLines_no_bestmove lines :
  forall st,
    Forall (fun l => isBestmoveLine l = false) lines ->
    threw st = false -> settlement st = Unsettled ->
    threw (scanLines fen depth st lines) = false
    /\ settlement (scanLines fen depth st lines) = Unsettled
    /\ cleanups (scanLines fen depth st lines) = cleanups st.
Proof.
  unfold scanLines. induction lines as [|l lines IH]; intros st Hall Ht Hs;
    [done|].
  apply Forall_cons in Hall as [Hbm Hall]. cbn.
  rewrite (lineStep_no_bestmove l st Ht Hbm).
  destruct (infoBlock_effects l st) as (Hc & Ht' & Hs').
  destruct (IH (infoBlock fen depth l st) Hall) as (? & ? & ?);
    [congruence|by apply Hs'|].
  repeat split; congruence.
Qed.

(** Once the promise is settled, lines that are not best-move lines leave
    the value it holds alone. *)
Lemma infoBlock_resolved line st e :
  resolvedValue st = Some e -> settlement st <> Unsettled ->
  resolvedValue (infoBlock fen depth line st) = Some e
  /\ settlement (infoBlock fen depth line st) <> Unsettled.
Proof.
  intros Hres Hs. unfold infoBlock.
  repeat match goal with
         | |- context [if ?b then _ else _] => destruct b
         | |- context [match ?o with Some _ => _ | None => _ end] =>
             destruct o as [[??]|]
         end; try done.
  all: unfold resolvedValue, assignEvaluation in *; cbn;
    destruct (settlement st); try done;
    destruct (evaluation st); try done.
Qed.

Lemma scanLines_resolved lines :
  forall st e,
    Forall (fun l => isBestmoveLine l = false) lines ->
    resolvedValue st = Some e -> settlement st <> Unsettled ->
    resolvedValue (scanLines fen depth st lines) = Some e.
Proof.
  unfold scanLines. induction lines as [|l lines IH]; intros st e Hall Hres Hs;
    [done|].
  apply Forall_cons in Hall as [Hbm Hall]. cbn.
  unfold lineStep at 2. destruct (threw st).
  - by apply IH.
  - rewrite (bestmoveBlock_other _ _ Hbm).
    destruct (infoBlock_resolved l st e Hres Hs). by apply IH.
Qed.

Lemma scanLines_thrown lines :
  forall st, threw st = true -> scanLines fen depth st lines = st.
Proof.
  unfold scanLines. induction lines as [|l lines IH]; intros st Ht; [done|].
  cbn. unfold lineStep at 2. rewrite Ht. by apply IH.
Qed.

Lemma qualifies_not_bestmove line :
  qualifies depth line = true -> isBestmoveLine line = false.
Proof.
  unfold qualifies. intros Hq.
  apply andb_true_iff in Hq as [Hq _].
  apply andb_true_iff in Hq as [Hinfo _].
  by apply info_not_bestmove.
Qed.

(** The evaluation a qualifying line assigns, field by field. *)
Lemma qualifying_line_assigns line st kind num :
  threw st = false ->
  qualifies depth line = true ->
  Regex.matchScore line = Some (kind, num) ->
  evaluation (lineStep fen depth st line)
  = Some {| type := kind;
            value := if isBlackTurn fen then - JS.parseInt num
                     else JS.parseInt num;
            bestMove := match Regex.matchPv line with
                        | Some moves =>
                            JS.trim (hd EmptyString (JS.split space moves))
                        | None => EmptyString
                        end;
            pv := match Regex.matchPv line with
                  | Some moves => JS.split space moves
                  | None => []
                  end |}.
Proof.
  intros Ht Hq Hscore.
  rewrite (lineStep_no_bestmove line st Ht (qualifies_not_bestmove _ Hq)).
  unfold qualifies in Hq.
  apply andb_true_iff in Hq as [Hq _].
  apply andb_true_iff in Hq as [Hinfo Hdepth].
  unfold infoBlock. unfold isInfoLine in Hinfo. rewrite Hinfo.
  unfold reportedDepth in Hdepth. by rewrite Z.geb_leb, Hdepth, Hscore.
Qed.

End ScanFacts.

(** X1.  The request is resolved with the score and variation of the last
    qualifying line before the best-move line and with the move of the
    best-move line as [bestMove], whatever the listener had recorded
    before and whatever follows in the same scan short of a second
    best-move line. *)
Theorem last_qualifying_line_is_resolved
    (fen : string) (depth : Z) (c : Parser.Closure) (data : string)
    (before after post : list string) (scored line : string)
    (kind : EvalType) (num token : string) :
  JS.split Parser.newline (String.append (Parser.output c) data)
    = before ++ scored :: after ++ line :: post ->
  Forall (fun l => Parser.isBestmoveLine l = false) before ->
  Parser.qualifies depth scored = true ->
  Regex.matchScore scored = Some (kind, num) ->
  Forall (fun l => Parser.isBestmoveLine l = false
                   /\ Parser.qualifies depth l = false) after ->
  Parser.isBestmoveLine line = true ->
  JS.split Parser.space line !! 1%nat = Some token ->
  Forall (fun l => Parser.isBestmoveLine l = false) post ->
  Parser.resolvedValue (Parser.onData fen depth c data).2
  = Some {| type := kind;
            value := if Parser.isBlackTurn fen then - JS.parseInt num
                     else JS.parseInt num;
            bestMove := JS.trim token;
            pv := match Regex.matchPv scored with
                  | Some moves => JS.split Parser.space moves
                  | None => []
                  end |}.
Proof.
  intros Hsplit Hbefore Hq Hscore Hafter Hbm Htoken Hpost.
  unfold Parser.onData. cbn [snd]. rewrite Hsplit.
  unfold Parser.scanLines. rewrite fold_left_app. cbn [fold_left].
  rewrite fold_left_app. cbn [fold_left].
  set (st0 := Parser.mkScan (Parser.running c) Parser.Unsettled 0 false).
  set (st1 := fold_left (Parser.lineStep fen depth) before st0).
  destruct (scanLines_no_bestmove fen depth before st0 Hbefore eq_refl
              eq_refl) as (Ht1 & Hs1 & Hc1).
  fold st1 in Ht1, Hs1, Hc1.
  set (st2 := Parser.lineStep fen depth st1 scored).
  pose proof (qualifying_line_assigns fen depth scored st1 kind num Ht1 Hq
                Hscore) as He2.
  fold st2 in He2.
  assert (Hst2 : Parser.threw st2 = false
                 /\ Parser.settlement st2 = Parser.Unsettled).
  { subst st2.
    rewrite (lineStep_no_bestmove fen depth scored st1 Ht1
               (qualifies_not_bestmove depth _ Hq)).
    destruct (infoBlock_effects fen depth scored st1) as (_ & Ht & Hs).
    split; [by rewrite Ht|by apply Hs]. }
  destruct Hst2 as [Ht2 Hs2].
  fold (Parser.scanLines fen depth st2 after).
  rewrite (scanLines_quiet fen depth after st2 Hafter).
  fold (Parser.scanLines fen depth (Parser.lineStep fen depth st2 line) post).
  apply scanLines_resolved; [done| |].
  - unfold Parser.lineStep. rewrite Ht2.
    rewrite infoBlock_not_qualifying.
    + unfold Parser.bestmoveBlock. unfold Parser.isBestmoveLine in Hbm.
      rewrite Hbm, Htoken, He2. unfold Parser.resolvedValue. cbn.
      by rewrite Hs2.
    + unfold Parser.qualifies. by rewrite (bestmove_not_info _ Hbm).
  - unfold Parser.lineStep. rewrite Ht2.
    rewrite infoBlock_not_qualifying.
    + unfold Parser.bestmoveBlock. unfold Parser.isBestmoveLine in Hbm.
      rewrite Hbm, Htoken, He2. cbn. by rewrite Hs2.
    + unfold Parser.qualifies. by rewrite (bestmove_not_info _ Hbm).
Qed.

Lemma last_qualifying_line_is_resolved_witness :
  Parser.resolvedValue
    (Parser.onData Samples.blackToMove 12
       (Parser.mkClosure ("info depth 10 score cp -12 pv c7c5" +:+ Samples.nl)
          (Some (mkEval cp 12 "c7c5" ["c7c5"])))
       ("info depth 11 score mate 3 pv e7e5 g1f3" +:+ Samples.nl
        +:+ "info depth 12 currmove d7d5" +:+ Samples.nl
        +:+ "bestmove e7e5 ponder g1f3" +:+ Samples.nl)).2
  = Some {| type := mate; value := -3; bestMove := "e7e5";
            pv := ["e7e5"; "g1f3"] |}.
Proof.
  apply (last_qualifying_line_is_resolved Samples.blackToMove 12 _ _
           ["info depth 10 score cp -12 pv c7c5"]
           ["info depth 12 currmove d7d5"] [""]
           "info depth 11 score mate 3 pv e7e5 g1f3"
           "bestmove e7e5 ponder g1f3" mate "3" "e7e5").
  - reflexivity.
  - repeat constructor.
  - reflexivity.
  - reflexivity.
  - repeat constructor.
  - reflexivity.
  - reflexivity.
  - repeat constructor.
Defined.

(** X2.  A best-move line without a move token - no space after
    [bestmove] - makes the listener throw before [cleanup()] and
    [resolve()] are reached: if no best-move line came before it, the
    request stays pending, the instance is not freed, and the lines after
    it are not looked at. *)
Theorem bestmove_without_token_throws
    (fen : string) (depth : Z) (c : Parser.Closure) (data : string)
    (before post : list string) (line : string) :
  JS.split Parser.newline (String.append (Parser.output c) data)
    = before ++ line :: post ->
  Forall (fun l => Parser.isBestmoveLine l = false) before ->
  Parser.isBestmoveLine line = true ->
  JS.split Parser.space line !! 1%nat = None ->
  Parser.threw (Parser.onData fen depth c data).2 = true
  /\ Parser.cleanups (Parser.onData fen depth c data).2 = 0%nat
  /\ Parser.resolvedValue (Parser.onData fen depth c data).2 = None
  /\ (Parser.onData fen depth c data).2
     = Parser.scanLines fen depth
         (Parser.mkScan (Parser.running c) Parser.Unsettled 0 false)
         (before ++ [line]).
Proof.
  intros Hsplit Hbefore Hbm Htoken.
  unfold Parser.onData. cbn [snd]. rewrite Hsplit.
  set (st0 := Parser.mkScan (Parser.running c) Parser.Unsettled 0 false).
  destruct (scanLines_no_bestmove fen depth before st0 Hbefore eq_refl
              eq_refl) as (Ht1 & Hs1 & Hc1).
  unfold Parser.scanLines in *. rewrite !fold_left_app. cbn [fold_left].
  set (st1 := fold_left (Parser.lineStep fen depth) before st0) in *.
  assert (Hline : let st2 := Parser.lineStep fen depth st1 line in
                  Parser.threw st2 = true
                  /\ Parser.cleanups st2 = 0%nat
                  /\ Parser.settlement st2 = Parser.Unsettled).
  { unfold Parser.lineStep. rewrite Ht1.
    rewrite infoBlock_not_qualifying
      by (unfold Parser.qualifies; by rewrite (bestmove_not_info _ Hbm)).
    unfold Parser.bestmoveBlock. unfold Parser.isBestmoveLine in Hbm.
    rewrite Hbm, Htoken. cbn. by rewrite Hc1, Hs1. }
  destruct Hline as (Ht2 & Hc2 & Hs2).
  fold (Parser.scanLines fen depth (Parser.lineStep fen depth st1 line) post).
  rewrite (scanLines_thrown fen depth post _ Ht2).
  unfold Parser.resolvedValue. by rewrite Ht2, Hc2, Hs2.
Qed.

Lemma bestmove_without_token_throws_witness :
  Parser.threw
    (Parser.onData Samples.whiteToMove 12 Parser.freshClosure
       ("info depth 12 score cp 31 pv e2e4" +:+ Samples.nl +:+ "bestmove")).2
  = true
  /\ Parser.resolvedValue
       (Parser.onData Samples.whiteToMove 12 Parser.freshClosure
          ("info depth 12 score cp 31 pv e2e4" +:+ Samples.nl
           +:+ "bestmove")).2
     = None.
Proof.
  destruct (bestmove_without_token_throws Samples.whiteToMove 12
              Parser.freshClosure
              ("info depth 12 score cp 31 pv e2e4" +:+ Samples.nl
               +:+ "bestmove")
              ["info depth 12 score cp 31 pv e2e4"] [] "bestmove")
    as (Ht & _ & Hr & _).
  - reflexivity.
  - repeat constructor.
  - reflexivity.
  - reflexivity.
  - split; [exact Ht|exact Hr].
Defined.

Section ScanInvariant.

Import Parser.

Variables (fen : string) (depth : Z).

Lemma infoBlock_paired line st :
  ScanSpec.paired st -> ScanSpec.paired (infoBlock fen depth line st).
Proof.
  intros Hp. unfold infoBlock.
  repeat match goal with
         | |- context [if ?b then _ else _] => destruct b
         | |- context [match ?o with Some _ => _ | None => _ end] =>
             destruct o as [[??]|]
         end; try done.
  all: destruct Hp as [Hc Hsh]; unfold ScanSpec.paired, assignEvaluation; cbn.
  all: destruct (settlement st) eqn:Hs.
  all: try (split; [done|by eauto]).
  all: try (destruct (Hsh eq_refl) as [old ->]; split; [|done];
            rewrite Hc; split; done).
  all: destruct (evaluation st); split; try done; by eauto.
Qed.

Lemma bestmoveBlock_paired line st :
  ScanSpec.paired st -> ScanSpec.paired (bestmoveBlock line st).
Proof.
  intros [Hc Hsh]. unfold bestmoveBlock.
  destruct (JS.startsWith "bestmove" line); [|done].
  destruct (JS.split space line !! 1%nat); [|done].
  destruct (evaluation st) eqn:He; unfold ScanSpec.paired; cbn.
  - split; [|by eauto].
    split; [done|]. by destruct (settlement st).
  - split.
    + split; [done|]. by destruct (settlement st).
    + destruct (settlement st) eqn:Hs; cbn; try done.
      all: intros _; destruct (Hsh eq_refl) as [? ?]; congruence.
Qed.

Lemma scanLines_paired lines :
  forall st, ScanSpec.paired st -> ScanSpec.paired (scanLines fen depth st lines).
Proof.
  unfold scanLines. induction lines as [|l lines IH]; intros st Hp; [done|].
  cbn. apply IH. unfold lineStep. destruct (threw st); [done|].
  by apply bestmoveBlock_paired, infoBlock_paired.
Qed.

Lemma lineStep_cleanups line st :
  (cleanups (lineStep fen depth st line)
   <= cleanups st + (if isBestmoveLine line then 1 else 0))%nat.
Proof.
  unfold lineStep. destruct (threw st); [lia|].
  destruct (infoBlock_effects fen depth line st) as (Hc & _ & _).
  unfold bestmoveBlock, isBestmoveLine.
  destruct (JS.startsWith "bestmove" line); [|lia].
  destruct (JS.split space line !! 1%nat); [|cbn; lia].
  destruct (evaluation (infoBlock fen depth line st)); cbn; lia.
Qed.

Lemma scanLines_cleanups lines :
  forall st,
    (cleanups (scanLines fen depth st lines)
     <= cleanups st
        + length (filter (fun l => isBestmoveLine l = true) lines))%nat.
Proof.
  unfold scanLines. induction lines as [|l lines IH]; intros st;
    [cbn; lia|].
  cbn [fold_left]. specialize (IH (lineStep fen depth st l)).
  pose proof (lineStep_cleanups l st) as Hl.
  rewrite filter_cons. destruct (decide (isBestmoveLine l = true)) as [E|E].
  - rewrite E in Hl. cbn [length]. lia.
  - apply not_true_is_false in E. rewrite E in Hl. lia.
Qed.

End ScanInvariant.

(** X3.  Whatever arrives, a call of the listener resolves the request
    exactly when it calls [cleanup()], and it calls [cleanup()] at most
    once per best-move line it scans. *)
Theorem resolve_comes_with_cleanup
    (fen : string) (depth : Z) (c : Parser.Closure) (data : string) :
  (Parser.resolvedValue (Parser.onData fen depth c data).2 = None
   <-> Parser.cleanups (Parser.onData fen depth c data).2 = 0%nat)
  /\ (Parser.cleanups (Parser.onData fen depth c data).2
      <= length (filter (fun l => Parser.isBestmoveLine l = true)
                   (JS.split Parser.newline
                      (String.append (Parser.output c) data))))%nat.
Proof.
  unfold Parser.onData. cbn [snd].
  set (st0 := Parser.mkScan (Parser.running c) Parser.Unsettled 0 false).
  set (lines := JS.split _ _).
  split.
  - assert (Hp : ScanSpec.paired st0) by (split; [done|discriminate]).
    apply (scanLines_paired fen depth lines) in Hp as [Hc Hsh].
    unfold Parser.resolvedValue.
    destruct (Parser.settlement (Parser.scanLines fen depth st0 lines))
      eqn:Hs.
    + split; [intros _; by apply Hc|done].
    + destruct (Hsh eq_refl) as [e ->].
      split; [done|]. intros H0. apply Hc in H0. discriminate.
    + split; [done|]. intros H0. apply Hc in H0. discriminate.
  - apply (scanLines_cleanups fen depth lines st0).
Qed.

(** ** The pool *)

Section PoolFacts.

Import Pool PoolSpec.

Lemma serving_idle_or_one inst :
  serving inst ->
  (listeners inst = [] /\ busy inst = false /\ queue inst = [])
  \/ (exists l, listeners inst = [l] /\ busy inst = true).
Proof.
  intros (Hlen & Hbusy & Hq).
  destruct (listeners inst) as [|l [|l' ls]] eqn:Hl.
  - left. split; [done|].
    destruct (busy inst) eqn:Hb.
    + exfalso. by apply (proj1 Hbusy eq_refl).
    + split; [done|]. by apply Hq.
  - right. exists l. split; [done|]. by apply Hbusy.
  - cbn in Hlen. lia.
Qed.

Lemma runEvaluation_serving inst req :
  listeners inst = [] -> serving (runEvaluation inst req).
Proof.
  intros Hl. unfold serving, runEvaluation. cbn. rewrite Hl. cbn.
  split; [lia|]. split; [|done]. split; [done|]. by intros _.
Qed.

Lemma enqueue_serving inst req :
  serving inst -> busy inst = true ->
  serving (mkInstance (busy inst) (queue inst ++ [req]) (listeners inst)
             (stdin inst)).
Proof.
  intros (Hlen & Hbusy & Hq) Hb. unfold serving. cbn.
  split; [done|]. split; [done|]. intros Hb'. congruence.
Qed.

Lemma cleanup_of_listener l inst :
  listeners inst = [l] ->
  cleanup (req_id (request l)) inst
  = match queue inst with
    | [] => mkInstance false [] [] (stdin inst)
    | next :: rest => runEvaluation (mkInstance false rest [] (stdin inst))
                                    next
    end.
Proof.
  intros Hl. unfold cleanup. rewrite Hl. cbn.
  by rewrite decide_False by (intros H; by apply H).
Qed.

Lemma cleanup_serving l inst :
  listeners inst = [l] -> serving (cleanup (req_id (request l)) inst).
Proof.
  intros Hl. rewrite (cleanup_of_listener l inst Hl).
  destruct (queue inst) as [|next rest].
  - unfold serving. cbn. split; [lia|]. split; [|done].
    split; [discriminate|done].
  - by apply runEvaluation_serving.
Qed.

Lemma evaluate_serving pool fen depth :
  Forall serving (instances pool) ->
  Forall serving (instances (evaluate pool fen depth)).
Proof.
  intros Hall. unfold evaluate.
  set (chosen := match list_find _ _ with Some (k, _) => k | None => 0%nat
                 end).
  destruct (instances pool !! chosen) as [inst|] eqn:Hk; [|done].
  cbn. apply Forall_insert; [done|].
  pose proof (Forall_lookup_1 _ _ _ _ Hall Hk) as Hinst.
  destruct (busy inst) eqn:Hb.
  - rewrite <- Hb. by apply enqueue_serving.
  - apply runEvaluation_serving.
    destruct (serving_idle_or_one inst Hinst) as [(? & _)|(l & _ & ?)];
      [done|congruence].
Qed.

Lemma timeout_serving pool k rid :
  Forall serving (instances pool) ->
  Forall serving (instances (timeout pool k rid)).
Proof.
  intros Hall. unfold timeout.
  destruct (instances pool !! k) as [inst|] eqn:Hk; [|done].
  case_bool_decide as Hin; [|done].
  cbn. apply Forall_insert; [done|].
  pose proof (Forall_lookup_1 _ _ _ _ Hall Hk) as Hinst.
  unfold inFlight in Hin.
  destruct (serving_idle_or_one inst Hinst) as [(Hl & _)|(l & Hl & _)].
  - rewrite Hl in Hin. by apply elem_of_nil in Hin.
  - rewrite Hl in Hin. cbn in Hin. apply list_elem_of_singleton in Hin.
    subst rid. by apply cleanup_serving.
Qed.

Lemma setClosure_listener l c inst :
  listeners inst = [l] ->
  listeners (setClosure (req_id (request l)) c inst)
  = [mkListener (request l) c].
Proof.
  intros Hl. unfold setClosure. cbn. rewrite Hl. cbn.
  by rewrite decide_True.
Qed.

Lemma setClosure_serving rid c inst :
  serving inst -> serving (setClosure rid c inst).
Proof.
  intros (Hlen & Hbusy & Hq). unfold serving, setClosure. cbn.
  rewrite length_fmap. split; [done|]. split; [|done].
  rewrite Hbusy. destruct (listeners inst); cbn; split; done.
Qed.

Lemma stdoutData_serving pool k data :
  Forall serving (instances pool) ->
  calm pool (StdoutData k data) ->
  Forall serving (instances (stdoutData pool k data)).
Proof.
  intros Hall Hcalm. unfold stdoutData.
  destruct (instances pool !! k) as [inst|] eqn:Hk; [|done].
  pose proof (Forall_lookup_1 _ _ _ _ Hall Hk) as Hinst.
  destruct (serving_idle_or_one inst Hinst) as [(Hl & _)|(l & Hl & _)].
  - rewrite Hl. cbn. by apply Forall_insert.
  - rewrite Hl. cbn [fold_left deliver].
    destruct (Parser.onData _ _ _ _) as [c' st] eqn:Hscan.
    cbn. apply Forall_insert; [done|].
    assert (Hone : (Parser.cleanups st <= 1)%nat).
    { pose proof (scanLines_cleanups
                    (req_fen (request l)) (req_depth (request l))
                    (JS.split Parser.newline
                       (Parser.output (closure l) +:+ data))
                    (Parser.mkScan (Parser.running (closure l))
                       Parser.Unsettled 0 false)) as Hle.
      unfold Parser.onData in Hscan. injection Hscan as _ Hst.
      rewrite Hst in Hle. cbn in Hle.
      specialize (Hcalm inst l Hk).
      rewrite Hl in Hcalm. specialize (Hcalm (list_elem_of_here _ _)).
      unfold bestmoveLines in Hcalm. lia. }
    destruct (Parser.cleanups st) as [|[|n]]; [| |lia].
    + cbn. by apply setClosure_serving.
    + cbn.
      pose proof (setClosure_listener l c' inst Hl) as Hl'.
      by apply (cleanup_serving _ _ Hl').
Qed.

Lemma step_serving pool ev :
  Forall serving (instances pool) -> calm pool ev ->
  Forall serving (instances (step pool ev)).
Proof.
  intros Hall Hcalm. destruct ev as [fen depth|k data|k rid]; cbn.
  - by apply evaluate_serving.
  - by apply stdoutData_serving.
  - by apply timeout_serving.
Qed.

End PoolFacts.

Lemma run_serving (evs : list PoolSpec.Event) :
  forall pool,
    Forall PoolSpec.serving (Pool.instances pool) ->
    PoolSpec.calmRun pool evs ->
    Forall PoolSpec.serving (Pool.instances (PoolSpec.run pool evs)).
Proof.
  unfold PoolSpec.run.
  induction evs as [|ev evs IH]; intros pool Hall Hcalm; [done|].
  destruct Hcalm as [Hev Hrest]. cbn [fold_left].
  apply IH; [|done]. by apply step_serving.
Qed.

(** X4.  From the initialized pool on, as long as no scan of a listener
    meets more than one best-move line, every instance has at most one
    request in flight, is busy exactly when it has one, and holds queued
    requests only while it is busy - through any sequence of [evaluate]
    calls, output chunks and timeouts. *)
Theorem one_request_in_flight_while_calm
    (poolSize : nat) (evs : list PoolSpec.Event) (inst : Pool.StockfishInstance) :
  PoolSpec.calmRun (Pool.initialized poolSize) evs ->
  inst ∈ Pool.instances (PoolSpec.run (Pool.initialized poolSize) evs) ->
  (length (Pool.inFlight inst) <= 1)%nat
  /\ (Pool.busy inst = true <-> Pool.inFlight inst <> [])
  /\ (Pool.busy inst = false -> Pool.queue inst = []).
Proof.
  intros Hcalm Hin.
  assert (Hinit : Forall PoolSpec.serving
                    (Pool.instances (Pool.initialized poolSize))).
  { cbn. apply Forall_replicate. unfold PoolSpec.serving, Pool.idle. cbn.
    split; [lia|]. split; [|done]. split; [discriminate|done]. }
  pose proof (run_serving evs _ Hinit Hcalm) as Hall.
  rewrite Forall_forall in Hall.
  destruct (Hall inst Hin) as (Hlen & Hbusy & Hq).
  unfold Pool.inFlight. rewrite length_fmap.
  split; [done|]. split; [|done].
  rewrite Hbusy. by destruct (Pool.listeners inst).
Qed.

Lemma busyDay_calm :
  PoolSpec.calmRun (Pool.initialized 2) Traces.busyDay.
Proof.
  cbn [PoolSpec.calmRun Traces.busyDay PoolSpec.calm].
  repeat split.
  - intros inst l Hk Hl. vm_compute in Hk. injection Hk as <-.
    apply list_elem_of_singleton in Hl. subst l. vm_compute. lia.
  - intros inst l Hk Hl. vm_compute in Hk. injection Hk as <-.
    apply list_elem_of_singleton in Hl. subst l. vm_compute. lia.
Defined.

Lemma one_request_in_flight_while_calm_witness :
  Pool.inFlight
    <$> Pool.instances (PoolSpec.run (Pool.initialized 2) Traces.busyDay)
  = [ [Pool.mkRequest 2 Samples.whiteToMove 12]; [] ]
  /\ (length (Pool.inFlight
                (Pool.runEvaluation
                   (Pool.mkInstance false [] []
                      [Pool.PositionFen Samples.whiteToMove;
                       Pool.GoDepth 12])
                   (Pool.mkRequest 2 Samples.whiteToMove 12))) <= 1)%nat.
Proof.
  split; [reflexivity|].
  apply (one_request_in_flight_while_calm 2 Traces.busyDay _ busyDay_calm).
  vm_compute. apply list_elem_of_here.
Defined.

(** X5.  The requests an instance has accepted form a first-in first-out
    queue whose head is the one in flight: [evaluate] changes one instance
    only and puts the request at the end of its pending list, settling
    nothing; the request in flight is the head of the pending list; and
    when it completes, [cleanup] drops exactly that head. *)
Theorem pending_requests_are_served_in_order
    (pool : Pool.StockfishPool) (fen : string) (depth : Z)
    (inst : Pool.StockfishInstance) (l : Pool.Listener) :
  (Forall PoolSpec.serving (Pool.instances pool) ->
   Pool.instances pool <> [] ->
   exists k before after,
     Pool.instances pool !! k = Some before
     /\ Pool.instances (Pool.evaluate pool fen depth)
        = <[k := after]> (Pool.instances pool)
     /\ PoolSpec.pending after
        = PoolSpec.pending before
          ++ [Pool.mkRequest (Pool.nextId pool) fen depth]
     /\ Pool.settled (Pool.evaluate pool fen depth) = Pool.settled pool)
  /\ (PoolSpec.serving inst ->
      Pool.inFlight inst = take 1 (PoolSpec.pending inst))
  /\ (Pool.listeners inst = [l] ->
      PoolSpec.pending inst
      = Pool.request l
        :: PoolSpec.pending (Pool.cleanup (Pool.req_id (Pool.request l))
                               inst)).
Proof.
  split; [|split].
  - intros Hall Hne. unfold Pool.evaluate.
    set (chosen := match list_find _ _ with Some (k, _) => k | None => 0%nat
                   end).
    assert (Hk : is_Some (Pool.instances pool !! chosen)).
    { subst chosen.
      destruct (list_find _ _) as [[k x]|] eqn:Hfind.
      - apply list_find_Some in Hfind as (Hk & _). by eexists.
      - destruct (Pool.instances pool); [done|]. by eexists. }
    destruct Hk as [before Hk]. rewrite Hk. cbn.
    exists chosen, before. eexists. split; [done|]. split; [done|].
    split; [|done].
    pose proof (Forall_lookup_1 _ _ _ _ Hall Hk) as Hinst.
    unfold PoolSpec.pending, Pool.inFlight.
    destruct (Pool.busy before) eqn:Hb; cbn.
    + by rewrite app_assoc.
    + destruct (serving_idle_or_one before Hinst)
        as [(Hl & _ & Hq)|(? & _ & ?)]; [|congruence].
      rewrite Hl, Hq. done.
  - intros Hinst. unfold PoolSpec.pending, Pool.inFlight.
    destruct (serving_idle_or_one inst Hinst)
      as [(Hl & _ & Hq)|(l' & Hl & _)].
    + by rewrite Hl, Hq.
    + by rewrite Hl.
  - intros Hl. rewrite (cleanup_of_listener l inst Hl).
    unfold PoolSpec.pending, Pool.inFlight. rewrite Hl.
    by destruct (Pool.queue inst).
Qed.

Lemma pending_requests_are_served_in_order_witness :
  (exists k before after,
     Pool.instances Samples.fourRequests !! k = Some before
     /\ Pool.instances
          (Pool.evaluate Samples.fourRequests Samples.whiteToMove 12)
        = <[k := after]> (Pool.instances Samples.fourRequests)
     /\ PoolSpec.pending after
        = PoolSpec.pending before
          ++ [Pool.mkRequest 4 Samples.whiteToMove 12]
     /\ Pool.settled
          (Pool.evaluate Samples.fourRequests Samples.whiteToMove 12)
        = [])
  /\ Pool.inFlight (Pool.runEvaluation Pool.idle
                      (Pool.mkRequest 0 Samples.whiteToMove 12))
     = [Pool.mkRequest 0 Samples.whiteToMove 12].
Proof.
  pose proof (pending_requests_are_served_in_order Samples.fourRequests
                Samples.whiteToMove 12
                (Pool.runEvaluation Pool.idle
                   (Pool.mkRequest 0 Samples.whiteToMove 12))
                (Pool.mkListener (Pool.mkRequest 0 Samples.whiteToMove 12)
                   Parser.freshClosure)) as (Heval & Hhead & _).
  split.
  - apply Heval; [|discriminate].
    vm_compute. repeat constructor; try lia; try done.
  - apply Hhead. by apply runEvaluation_serving.
Defined.

(** ** The replay of a game *)

Section ReplayFacts.

Context (Chess : Type) (initial : Chess)
        (loadPgn : string -> option (list Stockfish.Move))
        (chessFen : Chess -> string)
        (chessMove : Chess -> Stockfish.Move -> option Chess)
        (answer : nat -> string -> Z -> option StockfishEval).

(** What [replay] has done when it returns: one record and one request per
    move. *)
Lemma replay_records userColor depth moves :
  forall chess i acc log log' res,
    Stockfish.replay Chess chessFen chessMove answer
      userColor depth chess i moves acc log = (log', Some res) ->
    exists new,
      res = acc ++ new
      /\ length new = length moves
      /\ log' = log ++ ((fun r => (Stockfish.fen r, depth)) <$> new)
      /\ forall k r,
           new !! k = Some r ->
           answer (length log + k) (Stockfish.fen r) depth
           = Some (Stockfish.evaluation r)
           /\ Stockfish.moveNumber r = Z.of_nat (i + k) / 2 + 1
           /\ Stockfish.isUserMove r
              = match userColor with
                | Stockfish.white => Nat.even (i + k)
                | Stockfish.black => negb (Nat.even (i + k))
                end
           /\ exists move,
                moves !! k = Some move
                /\ Stockfish.movePlayed r = Stockfish.san move
                /\ Stockfish.movePlayedUci r
                   = Stockfish.from move +:+ Stockfish.to move
                     +:+ default EmptyString (Stockfish.promotion move).
Proof.
  induction moves as [|move rest IH]; intros chess i acc log log' res.
  - intros [= <- <-]. exists []. rewrite !app_nil_r.
    repeat split; try done. all: intros k r Hk; by destruct k.
  - cbn [Stockfish.replay]. unfold Stockfish.bind at 1.
    unfold Stockfish.evaluatePosition at 1.
    destruct (answer (length log) (chessFen chess) depth) as [e|] eqn:He;
      [|discriminate].
    unfold Stockfish.bind at 1.
    destruct (chessMove chess move) as [chess'|]; cbn; [|discriminate].
    intros Hrun.
    apply IH in Hrun as (new & -> & Hlen & -> & Hnew).
    eexists (_ :: new). rewrite <- !app_assoc. split; [reflexivity|].
    split; [cbn; by rewrite Hlen|]. split; [reflexivity|].
    intros [|k] r Hk.
    + injection Hk as <-. cbn. rewrite !Nat.add_0_r.
      split; [done|]. split; [done|]. split; [done|].
      exists move. done.
    + cbn in Hk. destruct (Hnew k r Hk) as (Hans & Hnum & Huser & Hmove).
      rewrite length_app in Hans. cbn in Hans.
      replace (length log + S k)%nat with (length log + 1 + k)%nat by lia.
      replace (i + S k)%nat with (S i + k)%nat by lia.
      split; [done|]. split; [done|]. split; [done|]. done.
Qed.

(** When [replay] returns a list, every request it issued was answered. *)
Lemma replay_all_answered userColor depth moves :
  forall chess i acc log log' res n fen d,
    Stockfish.replay Chess chessFen chessMove answer
      userColor depth chess i moves acc log = (log', Some res) ->
    (length log <= n)%nat -> log' !! n = Some (fen, d) ->
    is_Some (answer n fen d).
Proof.
  intros chess i acc log log' res n fen d Hrun Hn Hlook.
  apply replay_records in Hrun as (new & _ & _ & -> & Hnew).
  rewrite lookup_app_r in Hlook by done.
  rewrite list_lookup_fmap in Hlook.
  destruct (new !! (n - length log)%nat) as [r|] eqn:Hr; [|done].
  injection Hlook as <- <-.
  destruct (Hnew _ r Hr) as (Hans & _).
  replace (length log + (n - length log))%nat with n in Hans by lia.
  by eexists.
Qed.

End ReplayFacts.

(** X6.  When [analyzeGame] returns, it has issued exactly one evaluation
    request per move of the game, in game order, each for the position
    before the move and at the requested depth, and the record of each ply
    holds the answer to that ply's request. *)
Theorem analyzeGame_one_request_per_ply
    (Chess : Type) (initial : Chess)
    (loadPgn : string -> option (list Stockfish.Move))
    (chessFen : Chess -> string)
    (chessMove : Chess -> Stockfish.Move -> option Chess)
    (answer : nat -> string -> Z -> option StockfishEval)
    (pgn : string) (userColor : Stockfish.Color) (depth : Z)
    (log log' : list (string * Z)) (results : list Stockfish.PlyResult) :
  Stockfish.analyzeGame Chess initial loadPgn chessFen chessMove answer
    pgn userColor depth log = (log', Some results) ->
  (exists moves, loadPgn pgn = Some moves
                 /\ length results = length moves)
  /\ log' = log ++ ((fun r => (Stockfish.fen r, depth)) <$> results)
  /\ forall i r,
       results !! i = Some r ->
       answer (length log + i)%nat (Stockfish.fen r) depth
       = Some (Stockfish.evaluation r).
Proof.
  unfold Stockfish.analyzeGame, Stockfish.bind.
  destruct (loadPgn pgn) as [moves|]; cbn; [|discriminate].
  intros Hrun.
  apply replay_records in Hrun as (new & -> & Hlen & -> & Hnew).
  cbn. split; [by exists moves|]. split; [done|].
  intros i r Hr. by destruct (Hnew i r Hr).
Qed.

Lemma analyzeGame_one_request_per_ply_witness :
  exists results,
    length results = 4%nat
    /\ [(Samples.whiteToMove, 12); (Samples.blackToMove, 12);
        (Samples.whiteToMove, 12); (Samples.blackToMove, 12)]
       = [] ++ ((fun r => (Stockfish.fen r, 12)) <$> results).
Proof.
  assert (Hgame : Samples.analyzeGame "1. f3 e5 2. g4 Qh4# 0-1"
                    Stockfish.white 12 []
                  = ([(Samples.whiteToMove, 12); (Samples.blackToMove, 12);
                      (Samples.whiteToMove, 12); (Samples.blackToMove, 12)],
                     Some _)) by (vm_compute; reflexivity).
  eexists.
  destruct (analyzeGame_one_request_per_ply nat 0%nat Samples.loadPgn
              Samples.chessFen Samples.chessMove Samples.answer
              "1. f3 e5 2. g4 Qh4# 0-1" Stockfish.white 12 [] _ _
              Hgame) as ((moves & Hload & Hlen) & Hlog & _).
  split; [|exact Hlog].
  rewrite Hlen. vm_compute in Hload. by injection Hload as <-.
Defined.

Lemma even_of_nat (i : nat) : Z.even (Z.of_nat i) = Nat.even i.
Proof.
  induction i as [|i IH]; [done|].
  rewrite Nat2Z.inj_succ, Z.even_succ, <- Z.negb_even, IH.
  by rewrite Nat.even_succ, <- Nat.negb_even.
Qed.

(** X7.  In every record [analyzeGame] returns, the move number is
    [(ply + 1) / 2], the move is flagged as the user's exactly when the
    ply has the parity of the user's colour (odd for White), and the UCI
    token is the move's origin square, target square and promotion letter,
    if any, put together. *)
Theorem analyzeGame_record_fields
    (Chess : Type) (initial : Chess)
    (loadPgn : string -> option (list Stockfish.Move))
    (chessFen : Chess -> string)
    (chessMove : Chess -> Stockfish.Move -> option Chess)
    (answer : nat -> string -> Z -> option StockfishEval)
    (pgn : string) (userColor : Stockfish.Color) (depth : Z)
    (log log' : list (string * Z)) (results : list Stockfish.PlyResult)
    (i : nat) (r : Stockfish.PlyResult) :
  Stockfish.analyzeGame Chess initial loadPgn chessFen chessMove answer
    pgn userColor depth log = (log', Some results) ->
  results !! i = Some r ->
  Stockfish.moveNumber r = (Stockfish.ply r + 1) / 2
  /\ Stockfish.isUserMove r
     = match userColor with
       | Stockfish.white => Z.odd (Stockfish.ply r)
       | Stockfish.black => Z.even (Stockfish.ply r)
       end
  /\ exists moves move,
       loadPgn pgn = Some moves /\ moves !! i = Some move
       /\ Stockfish.movePlayed r = Stockfish.san move
       /\ Stockfish.movePlayedUci r
          = Stockfish.from move +:+ Stockfish.to move
            +:+ default EmptyString (Stockfish.promotion move).
Proof.
  intros Hgame Hr.
  pose proof (analyzeGame_numbers_plies _ _ _ _ _ _ _ _ _ _ _ _
                Hgame i r Hr) as Hply.
  revert Hgame. unfold Stockfish.analyzeGame, Stockfish.bind.
  destruct (loadPgn pgn) as [moves|]; cbn; [|discriminate].
  intros Hrun.
  apply replay_records in Hrun as (new & -> & _ & _ & Hnew).
  cbn in Hr. destruct (Hnew i r Hr) as (_ & Hnum & Huser & move & Hmove).
  cbn in Hnum, Huser. rewrite Hply.
  split.
  - rewrite Hnum. replace (Z.of_nat i + 1 + 1) with (Z.of_nat i + 1 * 2)
      by lia.
    by rewrite Z.div_add by lia.
  - split; [|by exists moves, move].
    rewrite Huser.
    replace (Z.of_nat i + 1) with (Z.succ (Z.of_nat i)) by lia.
    rewrite Z.odd_succ, Z.even_succ.
    rewrite <- Z.negb_even. 
    rewrite even_of_nat. by destruct userColor.
Qed.

Lemma analyzeGame_record_fields_witness :
  exists r,
    Stockfish.ply r = 4 /\ Stockfish.moveNumber r = 2
    /\ Stockfish.isUserMove r = false
    /\ Stockfish.movePlayedUci r = "d8h4"%string.
Proof.
  assert (Hgame : Samples.analyzeGame "1. f3 e5 2. g4 Qh4# 0-1"
                    Stockfish.white 12 []
                  = ([(Samples.whiteToMove, 12); (Samples.blackToMove, 12);
                      (Samples.whiteToMove, 12); (Samples.blackToMove, 12)],
                     Some _)) by (vm_compute; reflexivity).
  destruct (analyzeGame_record_fields nat 0%nat Samples.loadPgn
              Samples.chessFen Samples.chessMove Samples.answer
              "1. f3 e5 2. g4 Qh4# 0-1" Stockfish.white 12 [] _ _ 3%nat _
              Hgame eq_refl) as (Hnum & Huser & _).
  match type of Hnum with Stockfish.moveNumber ?r = _ => exists r end.
  split; [reflexivity|]. split; [exact Hnum|]. split; [exact Huser|].
  reflexivity.
Defined.

(** X8.  [analyzeGame] returns all records or none: as soon as one of the
    requests it has issued is rejected by the pool, it throws and no list
    is returned. *)
Theorem analyzeGame_rejected_request_fails
    (Chess : Type) (initial : Chess)
    (loadPgn : string -> option (list Stockfish.Move))
    (chessFen : Chess -> string)
    (chessMove : Chess -> Stockfish.Move -> option Chess)
    (answer : nat -> string -> Z -> option StockfishEval)
    (pgn : string) (userColor : Stockfish.Color) (depth : Z)
    (log log' : list (string * Z))
    (outcome : option (list Stockfish.PlyResult))
    (n : nat) (fen : string) (d : Z) :
  Stockfish.analyzeGame Chess initial loadPgn chessFen chessMove answer
    pgn userColor depth log = (log', outcome) ->
  (length log <= n)%nat ->
  log' !! n = Some (fen, d) ->
  answer n fen d = None ->
  outcome = None.
Proof.
  intros Hgame Hn Hlook Hrej.
  destruct outcome as [results|]; [|done]. exfalso.
  revert Hgame. unfold Stockfish.analyzeGame, Stockfish.bind.
  destruct (loadPgn pgn) as [moves|]; cbn; [|discriminate].
  intros Hrun.
  destruct (replay_all_answered _ _ _ _ _ _ _ _ _ _ _ _ _ _ _ _ Hrun Hn
              Hlook) as [e He].
  congruence.
Qed.

Lemma analyzeGame_rejected_request_fails_witness :
  (Stockfish.analyzeGame nat 0%nat Samples.loadPgn Samples.chessFen
     Samples.chessMove Traces.thirdTimesOut
     "1. f3 e5 2. g4 Qh4# 0-1" Stockfish.white 12 []).2
  = None.
Proof.
  destruct (Stockfish.analyzeGame nat 0%nat Samples.loadPgn Samples.chessFen
              Samples.chessMove Traces.thirdTimesOut
              "1. f3 e5 2. g4 Qh4# 0-1" Stockfish.white 12 [])
    as [log' outcome] eqn:Hgame.
  cbn [snd].
  apply (analyzeGame_rejected_request_fails nat 0%nat Samples.loadPgn
           Samples.chessFen Samples.chessMove Traces.thirdTimesOut
           "1. f3 e5 2. g4 Qh4# 0-1" Stockfish.white 12 [] log' outcome
           2%nat Samples.whiteToMove 12 Hgame).
  - cbn. lia.
  - vm_compute in Hgame. injection Hgame as <- _. reflexivity.
  - reflexivity.
Defined.

(** ** The records of an analysis *)

Ltac classify_cases :=
  unfold Analyzer.classifyMove, Analyzer.BLUNDER_THRESHOLD,
    Analyzer.MISTAKE_THRESHOLD, Analyzer.INACCURACY_THRESHOLD;
  repeat match goal with
    | |- context [?a >=? ?b] =>
        let E := fresh "E" in
        destruct (a >=? b) eqn:E;
        [apply geb_true_le in E | apply geb_false_lt in E]
    | |- context [?a >? ?b] => rewrite (Z.gtb_ltb a b)
    | |- context [?a <? ?b] => destruct (Z.ltb_spec a b)
    | |- _ => progress cbn [andb]
    | |- context [if ?b then _ else _] => is_var b; destruct b
    end.

Lemma classifyMove_bands cpLoss isBestMove evalBefore evalAfter isWhite :
  let c := Analyzer.classifyMove cpLoss isBestMove evalBefore evalAfter
             isWhite in
  (c = blunder <-> 200 <= cpLoss)
  /\ (c = mistake <-> 100 <= cpLoss < 200)
  /\ (c = inaccuracy <-> 50 <= cpLoss < 100)
  /\ (c = good <-> 15 <= cpLoss < 50 /\ isBestMove = false)
  /\ (c = excellent <-> cpLoss < 15 /\ isBestMove = false)
  /\ (c ∈ [best; great; brilliant] <-> cpLoss < 50 /\ isBestMove = true).
Proof.
  cbn zeta. rewrite !elem_of_cons, elem_of_nil.
  classify_cases; repeat split; intros; try discriminate; try lia;
    try tauto.
  all: repeat match goal with
              | H : _ /\ _ |- _ => destruct H
              | H : _ \/ _ |- _ => destruct H
              end; try discriminate; try lia; auto.
Qed.

(** X9.  The records come one per result and in the same order, and the
    evaluation after a move is the evaluation before the next: the
    [eval_after] of every record but the last equals the [eval_before] of
    its successor. *)
Theorem eval_after_is_next_eval_before
    (id : string) (results : list Stockfish.PlyResult) (i : nat)
    (m m' : MoveAnalysis) :
  AnalysisRoute.analyzeMoves id results !! i = Some m ->
  AnalysisRoute.analyzeMoves id results !! S i = Some m' ->
  eval_after m = eval_before m'
  /\ length (AnalysisRoute.analyzeMoves id results) = length results
  /\ ply <$> AnalysisRoute.analyzeMoves id results
     = Stockfish.ply <$> results.
Proof.
  intros Hm Hm'. unfold AnalysisRoute.analyzeMoves in *.
  split; [|split].
  - apply list_lookup_imap_Some in Hm as (current & Hcur & ->).
    apply list_lookup_imap_Some in Hm' as (next & Hnext & ->).
    unfold AnalysisRoute.analyzePly. cbn.
    replace (i + 1)%nat with (S i) by lia. by rewrite Hnext.
  - apply length_imap.
  - apply list_eq. intros j.
    rewrite !list_lookup_fmap, list_lookup_imap.
    by destruct (results !! j).
Qed.

Lemma eval_after_is_next_eval_before_witness :
  exists m m',
    AnalysisRoute.analyzeMoves "g1" Samples.threePlies !! 1%nat = Some m
    /\ AnalysisRoute.analyzeMoves "g1" Samples.threePlies !! 2%nat = Some m'
    /\ eval_after m = eval_before m' /\ eval_before m' = 20000.
Proof.
  eexists _, _. split; [reflexivity|]. split; [reflexivity|].
  split; [|reflexivity].
  exact (proj1 (eval_after_is_next_eval_before "g1" Samples.threePlies 1
                  _ _ eq_refl eq_refl)).
Defined.

(** X10.  In the records of an analysis the label follows the stored loss:
    a move is a blunder exactly when its [cp_loss] is at least 200, a
    mistake exactly from 100 up to 200, an inaccuracy exactly from 50 up
    to 100 - whether or not it was the engine's best move - and every
    other label goes with a loss below 50; [good] means a loss of at
    least 15 and [excellent] one below 15. *)
Theorem label_follows_stored_loss
    (id : string) (results : list Stockfish.PlyResult) (m : MoveAnalysis) :
  m ∈ AnalysisRoute.analyzeMoves id results ->
  (classification m = blunder <-> 200 <= cp_loss m)
  /\ (classification m = mistake <-> 100 <= cp_loss m < 200)
  /\ (classification m = inaccuracy <-> 50 <= cp_loss m < 100)
  /\ (classification m = good -> 15 <= cp_loss m < 50)
  /\ (classification m = excellent -> 0 <= cp_loss m < 15).
Proof.
  intros Hin. apply list_elem_of_lookup in Hin as [i Hm].
  apply list_lookup_imap_Some in Hm as (current & Hcur & ->).
  unfold AnalysisRoute.analyzePly.
  cbn [classification cp_loss].
  match goal with
  | |- context [Analyzer.classifyMove ?l ?b ?eb ?ea ?w] =>
      pose proof (classifyMove_bands l b eb ea w) as H;
      cbn zeta in H; destruct H as (Hb & Hm & Hi & Hg & He & _);
      assert (Hpos : 0 <= l) by lia
  end.
  split; [done|]. split; [done|]. split; [done|].
  split; [intros Hc; apply Hg in Hc; by destruct Hc|].
  intros Hc. apply He in Hc. lia.
Qed.

Lemma label_follows_stored_loss_witness :
  exists m,
    m ∈ AnalysisRoute.analyzeMoves "g1" Samples.threePlies
    /\ cp_loss m = 19965 /\ classification m = blunder.
Proof.
  assert (Hin : AnalysisRoute.analyzePly "g1" Samples.threePlies 1
                  (Samples.plyResult 2 "e7e5" (mkEval cp 35 "c7c5" ["c7c5"]))
                ∈ AnalysisRoute.analyzeMoves "g1" Samples.threePlies).
  { apply list_elem_of_lookup. exists 1%nat. reflexivity. }
  eexists. split; [exact Hin|].
  split; [reflexivity|].
  apply (proj1 (label_follows_stored_loss "g1" Samples.threePlies _ Hin)).
  vm_compute. discriminate.
Defined.

(** X11.  A record is labelled [best], [great] or [brilliant] exactly when
    the played move is the engine's best move (compared in lower case,
    trimmed) and the loss is below 50; and [great] and [brilliant] are
    given only to moves without any loss, after which the evaluation has
    moved by more than 40 centipawns in the mover's favour. *)
Theorem best_move_labels
    (id : string) (results : list Stockfish.PlyResult) (i : nat)
    (current : Stockfish.PlyResult) (m : MoveAnalysis) :
  results !! i = Some current ->
  AnalysisRoute.analyzeMoves id results !! i = Some m ->
  (classification m ∈ [best; great; brilliant]
   <-> cp_loss m < 50 /\ AnalysisRoute.isBestMove current = true)
  /\ (classification m ∈ [great; brilliant] ->
      cp_loss m = 0
      /\ 40 < (if Z.rem (ply m) 2 =? 1 then eval_after m - eval_before m
               else eval_before m - eval_after m)).
Proof.
  intros Hcur Hm.
  apply list_lookup_imap_Some in Hm as (current' & Hcur' & ->).
  assert (current' = current) as -> by congruence.
  unfold AnalysisRoute.analyzePly.
  cbn [classification cp_loss ply eval_after eval_before].
  split.
  - match goal with
    | |- context [Analyzer.classifyMove ?l ?b ?eb ?ea ?w] =>
        pose proof (classifyMove_bands l b eb ea w) as H;
        cbn zeta in H; by destruct H as (_ & _ & _ & _ & _ & H)
    end.
  - rewrite !elem_of_cons, elem_of_nil.
    set (eb := AnalysisRoute.centipawns (Stockfish.evaluation current)).
    set (ea := match results !! (i + 1)%nat with
               | Some n => AnalysisRoute.centipawns (Stockfish.evaluation n)
               | None => eb
               end).
    destruct (Z.rem (Stockfish.ply current) 2 =? 1),
      (AnalysisRoute.isBestMove current);
      unfold Analyzer.classifyMove; cbv beta iota zeta;
      classify_cases; intros [Hc|[Hc|[]]]; try discriminate; lia.
Qed.

Lemma best_move_labels_witness :
  exists m,
    AnalysisRoute.analyzeMoves "g1" Samples.threePlies !! 0%nat = Some m
    /\ (classification m ∈ [best; great; brilliant]
        <-> cp_loss m < 50 /\ true = true).
Proof.
  eexists. split; [reflexivity|].
  apply (best_move_labels "g1" Samples.threePlies 0
           (Samples.plyResult 1 "e2e4"
              (mkEval cp 30 "e2e4" ["e2e4"; "e7e5"]))); reflexivity.
Defined.

(** ** The summary of an analysis *)

Section SummaryFacts.

Import Summary.

Lemma countMove_lookup stats m k :
  countMove stats m !! k
  = match stats !! k with
    | Some n =>
        Some (if decide (className (classification m) = k) then n + 1
              else n)
    | None => None
    end.
Proof.
  unfold countMove.
  destruct (decide (className (classification m) = k)) as [->|Hne].
  - destruct (stats !! k) as [n|] eqn:Hk; [|by rewrite Hk].
    by rewrite lookup_insert_eq.
  - destruct (stats !! className (classification m)) as [n'|]; [|
      by destruct (stats !! k)].
    rewrite lookup_insert_ne by done. by destruct (stats !! k).
Qed.

Lemma foldl_countMove_lookup ms :
  forall stats k,
    foldl countMove stats ms !! k
    = match stats !! k with
      | Some n =>
          Some (n + Z.of_nat
                      (length (filter
                                 (fun m => className (classification m) = k)
                                 ms)))
      | None => None
      end.
Proof.
  induction ms as [|m ms IH]; intros stats k.
  - cbn. destruct (stats !! k); [f_equal; lia|done].
  - cbn [foldl]. rewrite IH, countMove_lookup, filter_cons.
    destruct (stats !! k) as [n|]; [|done].
    destruct (decide (className (classification m) = k)); f_equal;
      cbn [length]; lia.
Qed.

Lemma className_inj c c' : className c = className c' -> c = c'.
Proof. destruct c, c'; cbn; intros H; try done; discriminate H. Qed.

Lemma no_such_label k ms :
  (forall c, className c <> k) ->
  length (filter (fun m : MoveAnalysis => className (classification m) = k)
                 ms) = 0%nat.
Proof.
  intros Hk. induction ms as [|m ms IH]; [done|].
  rewrite filter_cons. by rewrite decide_False by apply Hk.
Qed.

Lemma label_count c u moves :
  Z.of_nat
    (length (filter (fun m => className (classification m) = className c)
               (filter (fun m => is_user_move m = u) moves)))
  = labelled c u moves.
Proof.
  unfold labelled. f_equal.
  induction moves as [|m moves IH]; [done|].
  rewrite !filter_cons.
  destruct (decide (is_user_move m = u)) as [Hu|Hu].
  - rewrite filter_cons.
    destruct (decide (className (classification m) = className c))
      as [Hc|Hc].
    + rewrite decide_True by (split; [done|by apply className_inj]).
      cbn. by rewrite IH.
    + rewrite decide_False; [done|]. intros [_ Heq]. apply Hc.
      by rewrite Heq.
  - rewrite decide_False; [done|]. by intros [? _].
Qed.

End SummaryFacts.

(** X12.  In the statistics of a player the counters [blunders],
    [mistakes] and [inaccuracies] stay at 0 whatever the moves are: the
    loop looks a counter up under the label of the move, and the labels
    are [blunder], [mistake] and [inaccuracy].  There is no counter for
    [good].  The counters [excellent], [great], [best] and [brilliant]
    hold the number of the player's moves with that label. *)
Theorem plural_counters_stay_zero (moves : list MoveAnalysis) (isUser : bool) :
  Summary.analyzePlayer moves isUser !! "blunders"%string = Some 0
  /\ Summary.analyzePlayer moves isUser !! "mistakes"%string = Some 0
  /\ Summary.analyzePlayer moves isUser !! "inaccuracies"%string = Some 0
  /\ Summary.analyzePlayer moves isUser !! "good"%string = None
  /\ Summary.analyzePlayer moves isUser !! "excellent"%string
     = Some (Summary.labelled excellent isUser moves)
  /\ Summary.analyzePlayer moves isUser !! "great"%string
     = Some (Summary.labelled great isUser moves)
  /\ Summary.analyzePlayer moves isUser !! "best"%string
     = Some (Summary.labelled best isUser moves)
  /\ Summary.analyzePlayer moves isUser !! "brilliant"%string
     = Some (Summary.labelled brilliant isUser moves).
Proof.
  unfold Summary.analyzePlayer.
  repeat split; rewrite foldl_countMove_lookup.
  1-3: (rewrite no_such_label by (intros []; discriminate));
       vm_compute; reflexivity.
  - reflexivity.
  - change "excellent"%string with (Summary.className excellent).
    rewrite label_count. cbn. f_equal.
  - change "great"%string with (Summary.className great).
    rewrite label_count. cbn. f_equal.
  - change "best"%string with (Summary.className best).
    rewrite label_count. cbn. f_equal.
  - change "brilliant"%string with (Summary.className brilliant).
    rewrite label_count. cbn. f_equal.
Qed.

Lemma filter_user_partition (moves : list MoveAnalysis) :
  (length (filter (fun m => is_user_move m = true) moves)
   + length (filter (fun m => is_user_move m = false) moves))%nat
  = length moves.
Proof.
  induction moves as [|m moves IH]; [done|].
  rewrite !filter_cons. destruct (is_user_move m) eqn:Hu.
  - rewrite decide_True by done. rewrite decide_False by done.
    cbn. lia.
  - rewrite decide_False by done. rewrite decide_True by done.
    cbn. lia.
Qed.

Lemma initialStats_total (n : Z) :
  Summary.initialStats n !! "totalMoves"%string = Some n.
Proof. vm_compute. reflexivity. Qed.

(** X13.  Every move is counted for exactly one player: the [totalMoves]
    of the user and of the opponent add up to the [totalMoves] of the
    summary, the number of records, and the four counters that do count
    never exceed a player's total. *)
Theorem summary_totals_add_up (moves : list MoveAnalysis) :
  exists userTotal opponentTotal,
    Summary.user (Summary.generateSummary moves) !! "totalMoves"%string
    = Some userTotal
    /\ Summary.opponent (Summary.generateSummary moves)
         !! "totalMoves"%string = Some opponentTotal
    /\ userTotal + opponentTotal
       = Summary.totalMoves (Summary.generateSummary moves)
    /\ Summary.totalMoves (Summary.generateSummary moves)
       = Z.of_nat (length moves)
    /\ Summary.labelled excellent true moves
       + Summary.labelled great true moves
       + Summary.labelled best true moves
       + Summary.labelled brilliant true moves <= userTotal.
Proof.
  eexists _, _. cbn [Summary.generateSummary Summary.user Summary.opponent
                       Summary.totalMoves].
  unfold Summary.analyzePlayer. rewrite !foldl_countMove_lookup.
  rewrite !no_such_label by (intros []; discriminate).
  rewrite !initialStats_total.
  split; [reflexivity|]. split; [reflexivity|].
  split; [pose proof (filter_user_partition moves); lia|].
  split; [done|].
  unfold Summary.labelled.
  rewrite Z.add_0_r.
  induction moves as [|m moves IH]; [cbn; lia|].
  rewrite !filter_cons.
  repeat case_decide; cbn [length]; try lia; exfalso;
    intuition congruence.
Qed.

Section PhaseFacts.

Import Summary.

Lemma foldl_countPhase ms :
  forall breakdown p,
    blunders (foldl countPhase breakdown ms p)
    = blunders (breakdown p)
      + Z.of_nat
          (length (filter (fun m => classification m = blunder
                                    /\ getGamePhase (fen m) (move_number m)
                                       = p) ms))
    /\ mistakes (foldl countPhase breakdown ms p)
       = mistakes (breakdown p)
         + Z.of_nat
             (length (filter (fun m => classification m = mistake
                                       /\ getGamePhase (fen m)
                                            (move_number m) = p) ms)).
Proof.
  induction ms as [|m ms IH]; intros breakdown p; [cbn; lia|].
  cbn [foldl]. destruct (IH (countPhase breakdown m) p) as [-> ->].
  rewrite !filter_cons. unfold countPhase.
  repeat case_decide; cbn [length blunders mistakes]; try lia; exfalso;
    intuition congruence.
Qed.

Lemma filter_user_and (P : MoveAnalysis -> Prop) `{!forall m, Decision (P m)}
    (moves : list MoveAnalysis) :
  length (filter P (filter (fun m => is_user_move m = true) moves))
  = length (filter (fun m => is_user_move m = true /\ P m) moves).
Proof.
  induction moves as [|m moves IH]; [done|].
  rewrite !filter_cons.
  repeat case_decide; rewrite ?filter_cons; repeat case_decide;
    cbn [length]; try lia; exfalso; intuition congruence.
Qed.

(** The first piece of a split holds no separator: splitting it again
    gives it back. *)
Lemma split_first_piece sep s :
  JS.split sep (hd EmptyString (JS.split sep s))
  = [hd EmptyString (JS.split sep s)].
Proof.
  induction s as [|c s IH]; [done|].
  cbn [JS.split]. destruct (Ascii.eqb c sep) eqn:Hc; [done|].
  destruct (JS.split sep s) as [|piece rest] eqn:Hs.
  - cbn. by rewrite Hc.
  - cbn [hd] in *. cbn [JS.split]. by rewrite Hc, IH.
Qed.

End PhaseFacts.

(** X14.  The phase breakdown counts the user's moves only: for every
    phase, its [blunders] is the number of records that are the user's,
    are labelled [blunder] and fall into that phase, and its [mistakes]
    likewise for [mistake]; the opponent's moves and every other label
    leave it alone. *)
Theorem phase_breakdown_counts_user_moves
    (moves : list MoveAnalysis) (p : Summary.Phase) :
  Summary.blunders (Summary.phaseBreakdown (Summary.generateSummary moves) p)
  = Z.of_nat
      (length
         (filter (fun m => is_user_move m = true
                           /\ classification m = blunder
                           /\ Summary.getGamePhase (fen m) (move_number m)
                              = p) moves))
  /\ Summary.mistakes
       (Summary.phaseBreakdown (Summary.generateSummary moves) p)
     = Z.of_nat
         (length
            (filter (fun m => is_user_move m = true
                              /\ classification m = mistake
                              /\ Summary.getGamePhase (fen m) (move_number m)
                                 = p) moves)).
Proof.
  cbn [Summary.generateSummary Summary.phaseBreakdown].
  unfold Summary.gamePhaseBreakdown.
  destruct (foldl_countPhase
              (filter (fun m => is_user_move m = true) moves)
              (fun _ => Summary.mkPhaseCounts 0 0) p) as [-> ->].
  cbn [Summary.blunders Summary.mistakes].
  by rewrite !filter_user_and.
Qed.

(** X15.  The phase of a position depends on the move number and on the
    board field of the FEN only - not on the side to move, the castling
    rights or the clocks; up to move 10 it is the opening whatever the
    board holds, and after that the endgame exactly when the board field
    has at most 12 characters that are neither digits nor slashes. *)
Theorem game_phase_reads_board_field (fen : string) (moveNumber : Z) :
  let board := hd EmptyString (JS.split Parser.space fen) in
  Summary.getGamePhase fen moveNumber = Summary.getGamePhase board moveNumber
  /\ (Summary.getGamePhase fen moveNumber = Summary.opening
      <-> moveNumber <= 10)
  /\ (Summary.getGamePhase fen moveNumber = Summary.endgame
      <-> 10 < moveNumber
          /\ (String.length (Summary.stripDigitsAndSlashes board) <= 12)%nat).
Proof.
  cbn zeta. unfold Summary.getGamePhase.
  rewrite split_first_piece. cbn [hd].
  split; [done|].
  destruct (Z.leb_spec moveNumber 10) as [Hn|Hn].
  - split; [split; [done|done]|]. split; [discriminate|lia].
  - destruct (Z.leb_spec
                (Z.of_nat (String.length
                             (Summary.stripDigitsAndSlashes
                                (hd EmptyString
                                    (JS.split Parser.space fen))))) 12)
      as [Hp|Hp].
    + split; [split; [discriminate|lia]|]. split; [lia|done].
    + split; [split; [discriminate|lia]|]. split; [discriminate|lia].
Qed.

Section OpeningFacts.

Import Summary.

Lemma truthy_not_empty o s : truthy o = Some s -> s <> EmptyString.
Proof.
  unfold truthy. destruct o as [t|]; [|done].
  destruct (String.eqb t EmptyString) eqn:Ht; [done|].
  intros [= <-]. by apply String.eqb_neq.
Qed.

Lemma truthy_nonempty s : s <> EmptyString -> truthy (Some s) = Some s.
Proof.
  intros Hs. unfold truthy. apply String.eqb_neq in Hs. by rewrite Hs.
Qed.

Lemma replaceDashes_empty s :
  replaceDashes s = EmptyString <-> s = EmptyString.
Proof. by destruct s. Qed.

End OpeningFacts.

(** X16.  [extractOpeningInfo] never returns an empty ECO code or name:
    without usable headers they are ["Unknown"] and ["Unknown Opening"];
    an empty [ECO] header counts as missing and [Opening] is used; and a
    non-empty last path segment of [ECOUrl] gives the name, with its
    dashes turned into spaces, before [Opening] is looked at. *)
Theorem opening_info_is_never_empty
    (headers : gmap string string) (url segment : string) :
  (Summary.eco (Summary.extractOpeningInfo headers) <> EmptyString
   /\ Summary.name (Summary.extractOpeningInfo headers) <> EmptyString)
  /\ (Summary.truthy (headers !! "ECO"%string) = None ->
      Summary.truthy (headers !! "Opening"%string) = None ->
      Summary.eco (Summary.extractOpeningInfo headers) = "Unknown"%string
      /\ (headers !! "ECOUrl"%string = None ->
          Summary.name (Summary.extractOpeningInfo headers)
          = "Unknown Opening"%string))
  /\ (headers !! "ECOUrl"%string = Some url ->
      last (JS.split "/" url) = Some segment ->
      segment <> EmptyString ->
      Summary.name (Summary.extractOpeningInfo headers)
      = Summary.replaceDashes segment).
Proof.
  unfold Summary.extractOpeningInfo. cbn [Summary.eco Summary.name].
  split; [split|split].
  - destruct (Summary.truthy (headers !! "ECO"%string)) as [e|] eqn:He.
    + by apply truthy_not_empty in He.
    + destruct (Summary.truthy (headers !! "Opening"%string)) as [o|] eqn:Ho.
      * by apply truthy_not_empty in Ho.
      * discriminate.
  - destruct (Summary.truthy (_ <$> headers !! "ECOUrl"%string))
      as [n|] eqn:Hn.
    + by apply truthy_not_empty in Hn.
    + destruct (Summary.truthy (headers !! "Opening"%string)) as [o|] eqn:Ho.
      * by apply truthy_not_empty in Ho.
      * discriminate.
  - intros -> Ho. rewrite Ho. split; [done|]. by intros ->.
  - intros -> Hlast Hseg.
    unfold fmap, option_fmap, option_map. rewrite Hlast.
    cbn [default].
    rewrite truthy_nonempty; [done|].
    by rewrite replaceDashes_empty.
Qed.

Lemma opening_info_is_never_empty_witness :
  Summary.extractOpeningInfo Traces.chessComHeaders
  = Summary.mkOpeningInfo "Unknown" "Sicilian Defense".
Proof.
  destruct (opening_info_is_never_empty Traces.chessComHeaders
              "https://www.chess.com/openings/Sicilian-Defense"
              "Sicilian-Defense") as (_ & Hdefault & Hurl).
  assert (Heco : Summary.eco (Summary.extractOpeningInfo
                                Traces.chessComHeaders) = "Unknown"%string).
  { apply Hdefault; vm_compute; reflexivity. }
  assert (Hname : Summary.name (Summary.extractOpeningInfo
                                  Traces.chessComHeaders)
                  = "Sicilian Defense"%string).
  { rewrite Hurl; [reflexivity|vm_compute; reflexivity|reflexivity|
                   discriminate]. }
  destruct (Summary.extractOpeningInfo Traces.chessComHeaders).
  cbn in Heco, Hname. by subst.
Defined.

(** ** The handshake *)

Section HandshakeFacts.

Import Handshake.

Lemma prefix_app_l n : forall s t,
  String.prefix n s = true -> String.prefix n (s +:+ t) = true.
Proof.
  induction n as [|a n IH]; intros s t;
    [intros _; by destruct (s +:+ t)|].
  destruct s as [|b s]; [done|].
  change (String b s +:+ t) with (String b (s +:+ t)).
  rewrite !prefix_cons. destruct (ascii_dec a b); [apply IH|done].
Qed.

Lemma includes_app_l n s t :
  includes n s = true -> includes n (s +:+ t) = true.
Proof.
  induction s as [|c s IH].
  - cbn. rewrite orb_false_r. intros Hp.
    destruct n; [by destruct t|done].
  - change (String c s +:+ t) with (String c (s +:+ t)).
    cbn [includes]. rewrite !orb_true_iff. intros [Hp|Hi].
    + left. by apply (prefix_app_l n (String c s) t).
    + right. by apply IH.
Qed.

Lemma includes_app_r n s t :
  includes n t = true -> includes n (s +:+ t) = true.
Proof.
  intros Ht. induction s as [|c s IH]; [done|].
  change (String c s +:+ t) with (String c (s +:+ t)).
  cbn [includes]. rewrite IH. apply orb_true_r.
Qed.

Lemma prefix_refl n : String.prefix n n = true.
Proof.
  induction n as [|a n IH]; [done|].
  rewrite prefix_cons. by destruct (ascii_dec a a).
Qed.

Lemma includes_refl n : includes n n = true.
Proof. destruct n; cbn [includes]; by rewrite prefix_refl. Qed.

(** What the listener keeps: either nothing but [uci] has been written, or
    the three option lines follow it and the marker is in [output]. *)
Lemma onData_written st data :
  (written st = ["uci" +:+ nl]
   \/ (written st = ("uci" +:+ nl) :: options
       /\ includes "_options_sent_" (output st) = true)) ->
  (written (onData st data) = ["uci" +:+ nl]
   \/ (written (onData st data) = ("uci" +:+ nl) :: options
       /\ includes "_options_sent_" (output (onData st data)) = true)).
Proof.
  intros Hinv. unfold onData. destruct (ready st); [done|].
  destruct (includes "uciok" (output st +:+ data)
            && negb (includes "readyok" (output st +:+ data))).
  - destruct (includes "_options_sent_" (output st +:+ data)) eqn:Hm;
      cbn [negb written output].
    + destruct Hinv as [Hw|[Hw _]]; [by left|by right].
    + destruct Hinv as [Hw|[_ Hsent]].
      * right. rewrite Hw. split; [done|].
        apply includes_app_r, includes_refl.
      * apply (includes_app_l _ _ data) in Hsent. congruence.
  - cbn [written output].
    destruct Hinv as [Hw|[Hw Hsent]]; [by left|].
    right. split; [done|]. by apply includes_app_l.
Qed.

End HandshakeFacts.

(** X17.  Whatever the engine sends and however it is cut into chunks, the
    handshake writes [uci] and then either nothing more or, once and
    complete and in this order, the thread count, the hash size and
    [isready]; the options are never written twice. *)
Theorem options_are_written_at_most_once (chunks : list string) :
  Handshake.written (Handshake.run chunks) = ["uci" +:+ Handshake.nl]
  \/ Handshake.written (Handshake.run chunks)
     = [ "uci" +:+ Handshake.nl;
         "setoption name Threads value 1" +:+ Handshake.nl;
         "setoption name Hash value 128" +:+ Handshake.nl;
         "isready" +:+ Handshake.nl ].
Proof.
  assert (Hinv : forall st,
    (Handshake.written st = ["uci" +:+ Handshake.nl]
     \/ (Handshake.written st = ("uci" +:+ Handshake.nl) :: Handshake.options
         /\ Handshake.includes "_options_sent_" (Handshake.output st)
            = true)) ->
    (Handshake.written (fold_left Handshake.onData chunks st)
     = ["uci" +:+ Handshake.nl]
     \/ (Handshake.written (fold_left Handshake.onData chunks st)
         = ("uci" +:+ Handshake.nl) :: Handshake.options
         /\ Handshake.includes "_options_sent_"
              (Handshake.output (fold_left Handshake.onData chunks st))
            = true))).
  { induction chunks as [|data chunks IH]; intros st Hst; [done|].
    cbn [fold_left]. by apply IH, onData_written. }
  destruct (Hinv Handshake.start) as [Hw|[Hw _]]; [by left|by left|].
  by right.
Qed.

(** X18.  A chunk that brings [readyok] into the output completes the
    handshake in that very call, and that call writes nothing: when
    [readyok] is already there as [uciok] is first seen, the instance is
    handed over without the options ever being sent.  Until [readyok] is
    in the output the handshake is not complete and the timer rejects. *)
Theorem readyok_completes_handshake (st : Handshake.State) (data : string) :
  Handshake.ready st = false ->
  (Handshake.includes "readyok" (Handshake.output st +:+ data) = true ->
   Handshake.ready (Handshake.onData st data) = true
   /\ Handshake.written (Handshake.onData st data) = Handshake.written st)
  /\ (Handshake.ready (Handshake.onData st data) = false ->
      Handshake.timesOut (Handshake.onData st data) = true).
Proof.
  intros Hready. unfold Handshake.onData, Handshake.timesOut.
  rewrite Hready. split.
  - intros Hok. rewrite Hok. rewrite andb_false_r. cbn. by rewrite Hok.
  - destruct (Handshake.includes "uciok" _ && _);
      [destruct (negb _)|]; cbn; by intros ->.
Qed.

Lemma readyok_completes_handshake_witness :
  Handshake.ready
    (Handshake.onData Handshake.start
       ("id name Stockfish" +:+ Handshake.nl +:+ "uciok" +:+ Handshake.nl
        +:+ "readyok" +:+ Handshake.nl)) = true
  /\ Handshake.written
       (Handshake.onData Handshake.start
          ("id name Stockfish" +:+ Handshake.nl +:+ "uciok" +:+ Handshake.nl
           +:+ "readyok" +:+ Handshake.nl))
     = ["uci" +:+ Handshake.nl].
Proof.
  apply (proj1 (readyok_completes_handshake Handshake.start
                  ("id name Stockfish" +:+ Handshake.nl +:+ "uciok"
                   +:+ Handshake.nl +:+ "readyok" +:+ Handshake.nl)
                  eq_refl)).
  reflexivity.
Defined.

(** ** The statement of [listGames] *)

Lemma placeholders_app (s t : string) :
  Games.placeholders (s +:+ t)
  = (Games.placeholders s + Games.placeholders t)%nat.
Proof.
  induction s as [|c s IH]; [done|].
  change (String c s +:+ t) with (String c (s +:+ t)).
  cbn [Games.placeholders]. rewrite IH. lia.
Qed.

(** X19.  Whatever the query holds, the statement [listGames] prepares has
    exactly as many placeholders in its [WHERE] clause as parameters bound
    to them, the clause starts with the fixed [WHERE 1=1], the column it
    sorts by is one of [played_at], [opening_eco] and [result] - any other
    [sortBy] falls back to [played_at] - and the direction is [ASC] or
    [DESC]. *)
Theorem listGames_statement_is_well_formed (q : Games.Query) :
  Games.placeholders (Games.whereClause (Games.listGamesStatement q))
  = length (Games.params (Games.listGamesStatement q))
  /\ String.prefix "WHERE 1=1"
       (Games.whereClause (Games.listGamesStatement q)) = true
  /\ Games.sortField (Games.listGamesStatement q) ∈ Games.validSortFields
  /\ Games.sortOrder (Games.listGamesStatement q)
     ∈ ["ASC"; "DESC"]%string.
Proof.
  unfold Games.listGamesStatement.
  destruct (Games.given (Games.source q)) as [s|];
    destruct (Games.given (Games.opening q)) as [o|];
    destruct (Games.analyzed q) as [a|];
    destruct (Games.given (Games.result q)) as [r|];
    cbn [Games.whereClause Games.params Games.sortField Games.sortOrder].
  all: split; [rewrite ?placeholders_app, ?length_app; reflexivity|].
  all: split; [reflexivity|].
  all: split;
    [case_bool_decide as Hin; [exact Hin|];
     apply list_elem_of_here
    |destruct (String.eqb _ "asc"); [apply list_elem_of_here|];
     apply list_elem_of_further, list_elem_of_here].
Qed.

(** ** Imported games *)

Section SplitFacts.

Lemma prefix_empty (s : string) : String.prefix EmptyString s = true.
Proof. by destruct s. Qed.

Lemma includes_char_app (c : ascii) (s t : string) :
  Handshake.includes (String c EmptyString) (s +:+ t)
  = Handshake.includes (String c EmptyString) s
    || Handshake.includes (String c EmptyString) t.
Proof.
  induction s as [|a s IH].
  - cbn. by destruct t.
  - change (String a s +:+ t) with (String a (s +:+ t)).
    cbn [Handshake.includes]. rewrite IH, !prefix_cons.
    destruct (ascii_dec c a).
    + by rewrite !prefix_empty.
    + by rewrite !orb_false_l.
Qed.

Lemma includes_char_cons (c a : ascii) (s : string) :
  Handshake.includes (String c EmptyString) (String a s)
  = Ascii.eqb a c || Handshake.includes (String c EmptyString) s.
Proof.
  cbn [Handshake.includes]. rewrite prefix_cons.
  destruct (ascii_dec c a) as [<-|Hne].
  - by rewrite Ascii.eqb_refl, prefix_empty.
  - apply not_eq_sym, Ascii.eqb_neq in Hne. by rewrite Hne.
Qed.

(** No piece of a split holds the separator. *)
Lemma split_pieces_free sep s :
  Forall (fun piece =>
            Handshake.includes (String sep EmptyString) piece = false)
         (JS.split sep s).
Proof.
  induction s as [|a s IH]; [by repeat constructor|].
  cbn [JS.split]. destruct (Ascii.eqb a sep) eqn:Ha.
  - by constructor.
  - destruct (JS.split sep s) as [|piece rest].
    + constructor; [|done]. rewrite includes_char_cons, Ha. done.
    + apply Forall_cons in IH as [Hp Hrest].
      constructor; [|done]. by rewrite includes_char_cons, Ha, Hp.
Qed.

End SplitFacts.

(** X21.  The identifier of a chess.com game holds no slash, whatever the
    URL is, and it never equals the identifier of a lichess game: the two
    sources cannot collide on the primary key of the table of games. *)
Theorem game_ids_do_not_collide (url id : string) :
  Handshake.includes "/" (GameImport.chesscomGameId url) = false
  /\ GameImport.chesscomGameId url <> GameImport.lichessGameId id.
Proof.
  split; [|discriminate].
  unfold GameImport.chesscomGameId, GameImport.lastOr.
  rewrite includes_char_app. cbn [orb].
  change (Handshake.includes "/" "chesscom_") with false. cbn [orb].
  pose proof (split_pieces_free "/" url) as Hall.
  destruct (last (JS.split "/" url)) as [piece|] eqn:Hlast; [|done].
  apply last_Some_elem_of in Hlast.
  rewrite Forall_forall in Hall. by apply Hall.
Qed.

Section FetchFacts.

Context {Game : Type} (getGamesFromArchive : string -> option (list Game)).

(** The loop stops between two archives: what it has collected is what it
    had, followed by the games of the first few archives that answered. *)
Lemma collect_whole_archives limit recent :
  forall allGames,
    exists k,
      GameImport.collect Game getGamesFromArchive limit recent allGames
      = allGames
        ++ mjoin (omap getGamesFromArchive (take k recent)).
Proof.
  induction recent as [|url recent IH]; intros allGames.
  - exists 0%nat. cbn. by rewrite app_nil_r.
  - cbn [GameImport.collect].
    destruct (Z.of_nat (length allGames) >=? limit).
    + exists 0%nat. cbn. by rewrite app_nil_r.
    + destruct (getGamesFromArchive url) as [games|] eqn:Hget.
      * destruct (IH (allGames ++ games)) as [k ->].
        exists (S k). cbn. rewrite Hget. cbn. by rewrite app_assoc.
      * destruct (IH allGames) as [k ->].
        exists (S k). cbn. by rewrite Hget.
Qed.

End FetchFacts.

(** X20.  [fetchAllGames] returns at most [limit] games (for a limit that
    is not negative), and they are the first games of the archives that
    answered, newest archive first: an archive whose request fails is
    skipped and the others are still read.  With [months] positive only
    the last [months] archives are read; with [months = 0] every archive
    is. *)
Theorem fetchAllGames_respects_limit
    (Game : Type) (getGamesFromArchive : string -> option (list Game))
    (archives : list string) (limit months : Z) :
  (0 <= limit ->
   Z.of_nat (length (GameImport.fetchAllGames Game getGamesFromArchive
                       archives limit months)) <= limit)
  /\ GameImport.fetchAllGames Game getGamesFromArchive archives limit months
     `prefix_of`
     mjoin (omap getGamesFromArchive
              (reverse (GameImport.sliceFrom (- months) archives)))
  /\ (0 < months ->
      GameImport.sliceFrom (- months) archives
      = drop (length archives - Z.to_nat months) archives)
  /\ GameImport.sliceFrom (- 0) archives = archives.
Proof.
  unfold GameImport.fetchAllGames.
  set (recent := reverse (GameImport.sliceFrom (- months) archives)).
  split; [|split; [|split]].
  - intros Hlimit. unfold GameImport.sliceTo.
    destruct (Z.ltb_spec limit 0); [lia|].
    rewrite length_take. lia.
  - destruct (collect_whole_archives getGamesFromArchive limit recent [])
      as [k ->].
    cbn [app]. unfold GameImport.sliceTo.
    etrans; [apply prefix_take|].
    rewrite <- (take_drop k recent) at 2.
    rewrite omap_app, join_app. by apply prefix_app_r.
  - intros Hmonths. unfold GameImport.sliceFrom.
    destruct (Z.ltb_spec (- months) 0); [|lia].
    f_equal. lia.
  - unfold GameImport.sliceFrom. change (- 0) with 0.
    change (0 <? 0) with false. cbv iota.
    by rewrite Z.min_l by lia.
Qed.

Lemma fetchAllGames_respects_limit_witness :
  GameImport.fetchAllGames nat Traces.getGamesFromArchive Traces.archives
    4 12 = [31; 32; 11; 12]%nat
  /\ Z.of_nat (length (GameImport.fetchAllGames nat
                         Traces.getGamesFromArchive Traces.archives 4 12))
     <= 4.
Proof.
  split; [reflexivity|].
  apply (proj1 (fetchAllGames_respects_limit nat Traces.getGamesFromArchive
                  Traces.archives 4 12)).
  lia.
Defined.

(** ** What the variation pattern captures *)

Section VariationFacts.

Lemma pvAt_digit c s :
  JS.isDigit c = true -> Regex.pvAt (String c s) = None.
Proof.
  intros Hc. unfold Regex.pvAt. cbn [Regex.stripPrefix].
  destruct (Ascii.eqb "p" c) eqn:Hp; [|done].
  apply Ascii.eqb_eq in Hp. subst c. discriminate Hc.
Qed.

Lemma numeral_digits d :
  JS.isNumeral d = true ->
  exists c d', d = String c d' /\ JS.isDigit c = true
               /\ (d' = EmptyString \/ JS.isNumeral d' = true).
Proof.
  destruct d as [|c d']; [done|]. cbn [JS.isNumeral]. intros Hd.
  exists c, d'. split; [done|]. destruct d' as [|c' d''].
  - by auto.
  - apply andb_true_iff in Hd as [? ?]. by auto.
Qed.

(** The search for the variation pattern walks over a numeral. *)
Lemma leftmost_pvAt_numeral d :
  JS.isNumeral d = true ->
  forall s, Regex.leftmost Regex.pvAt (d +:+ s)
            = Regex.leftmost Regex.pvAt s.
Proof.
  induction d as [|c d IH]; [done|]. intros Hd s.
  destruct (numeral_digits _ Hd) as (c' & d' & [= <- <-] & Hc & Hd').
  change (String c d +:+ s) with (String c (d +:+ s)).
  rewrite leftmost_skip by by apply pvAt_digit.
  destruct Hd' as [->|Hd']; [done|]. by apply IH.
Qed.

Lemma dotStar_nonempty c s :
  Regex.isLineTerminator c = false ->
  Regex.dotStar (String c s) = String c (Regex.dotStar s).
Proof. intros Hc. cbn [Regex.dotStar]. by rewrite Hc. Qed.

End VariationFacts.

(** X22.  On a search-progress line in the layout Stockfish prints -
    [info depth D seldepth S multipv N score ... pv moves] - the pattern
    for the variation matches inside the word [multipv]: what is captured
    as variation is everything after [multipv ], beginning with the number
    [N], not the moves after [ pv ]. *)
Theorem variation_is_captured_from_multipv
    (d sd : string) (c : ascii) (rest : string) :
  JS.isNumeral d = true -> JS.isNumeral sd = true ->
  Regex.isLineTerminator c = false ->
  Regex.matchPv ("info depth " +:+ d +:+ " seldepth " +:+ sd
                 +:+ " multipv " +:+ String c rest)
  = Some (String c (Regex.dotStar rest)).
Proof.
  intros Hd Hsd Hc. unfold Regex.matchPv.
  change ("info depth " +:+ d +:+ " seldepth " +:+ sd +:+ " multipv "
          +:+ String c rest)
    with (String "i" (String "n" (String "f" (String "o" (String " "
           (String "d" (String "e" (String "p" (String "t" (String "h"
           (String " "
              (d +:+ " seldepth " +:+ sd +:+ " multipv "
               +:+ String c rest)))))))))))).
  do 11 (rewrite leftmost_skip; [|done]).
  rewrite (leftmost_pvAt_numeral d Hd).
  change (" seldepth " +:+ sd +:+ " multipv " +:+ String c rest)
    with (String " " (String "s" (String "e" (String "l" (String "d"
           (String "e" (String "p" (String "t" (String "h" (String " "
              (sd +:+ " multipv " +:+ String c rest))))))))))).
  do 10 (rewrite leftmost_skip; [|done]).
  rewrite (leftmost_pvAt_numeral sd Hsd).
  change (" multipv " +:+ String c rest)
    with (String " " (String "m" (String "u" (String "l" (String "t"
           (String "i" ("pv " +:+ String c rest))))))).
  do 6 (rewrite leftmost_skip; [|done]).
  change ("pv " +:+ String c rest)
    with (String "p" (String "v" (String " " (String c rest)))).
  unfold Regex.leftmost, Regex.pvAt. cbn [Regex.stripPrefix].
  cbn. by rewrite Hc.
Qed.

Lemma variation_is_captured_from_multipv_witness :
  Regex.matchPv
    "info depth 12 seldepth 17 multipv 1 score cp 31 nodes 900 pv e2e4 e7e5"
  = Some "1 score cp 31 nodes 900 pv e2e4 e7e5"%string.
Proof.
  apply (variation_is_captured_from_multipv "12" "17" "1"
           " score cp 31 nodes 900 pv e2e4 e7e5"); reflexivity.
Defined.

(** ** The object the promise holds *)

Section SharedObject.

Import Parser.

Variables (fen : string) (depth : Z).

(** The scan up to and including the first best-move line after a scored
    line: the promise holds the object the closure still refers to. *)
Lemma scan_to_first_bestmove st0 before after scored line kind num token :
  threw st0 = false -> settlement st0 = Unsettled ->
  Forall (fun l => isBestmoveLine l = false) before ->
  qualifies depth scored = true ->
  Regex.matchScore scored = Some (kind, num) ->
  Forall (fun l => isBestmoveLine l = false /\ qualifies depth l = false)
         after ->
  isBestmoveLine line = true ->
  JS.split space line !! 1%nat = Some token ->
  let st := scanLines fen depth st0 (before ++ scored :: after ++ [line]) in
  threw st = false
  /\ settlement st = SettledShared
  /\ cleanups st = S (cleanups st0)
  /\ evaluation st
     = Some {| type := kind;
               value := if isBlackTurn fen then - JS.parseInt num
                        else JS.parseInt num;
               bestMove := JS.trim token;
               pv := match Regex.matchPv scored with
                     | Some moves => JS.split space moves
                     | None => []
                     end |}.
Proof.
  intros Ht0 Hs0 Hbefore Hq Hscore Hafter Hbm Htoken. cbn zeta.
  unfold scanLines. rewrite fold_left_app. cbn [fold_left].
  rewrite fold_left_app. cbn [fold_left].
  destruct (scanLines_no_bestmove fen depth before st0 Hbefore Ht0 Hs0)
    as (Ht1 & Hs1 & Hc1).
  unfold scanLines in Ht1, Hs1, Hc1.
  set (st1 := fold_left (lineStep fen depth) before st0) in *.
  pose proof (qualifying_line_assigns fen depth scored st1 kind num Ht1 Hq
                Hscore) as He2.
  assert (Hst2 : threw (lineStep fen depth st1 scored) = false
                 /\ settlement (lineStep fen depth st1 scored) = Unsettled
                 /\ cleanups (lineStep fen depth st1 scored) = cleanups st1).
  { rewrite (lineStep_no_bestmove fen depth scored st1 Ht1
               (qualifies_not_bestmove depth _ Hq)).
    destruct (infoBlock_effects fen depth scored st1) as (Hc & Ht & Hs).
    split; [by rewrite Ht|]. split; [by apply Hs|done]. }
  set (st2 := lineStep fen depth st1 scored) in *.
  destruct Hst2 as (Ht2 & Hs2 & Hc2).
  fold (scanLines fen depth st2 after).
  rewrite (scanLines_quiet fen depth after st2 Hafter).
  unfold lineStep. rewrite Ht2.
  rewrite infoBlock_not_qualifying
    by (unfold qualifies; by rewrite (bestmove_not_info _ Hbm)).
  unfold bestmoveBlock. unfold isBestmoveLine in Hbm.
  rewrite Hbm, Htoken, He2. cbn. rewrite Hs2, Hc2, Hc1. done.
Qed.

Lemma scanLines_cleanups_mono lines :
  forall st,
    (cleanups st <= cleanups (scanLines fen depth st lines))%nat.
Proof.
  unfold scanLines. induction lines as [|l lines IH]; intros st; [done|].
  cbn [fold_left]. etrans; [|apply IH].
  unfold lineStep. destruct (threw st); [done|].
  destruct (infoBlock_effects fen depth l st) as (Hc0 & _ & _).
  unfold bestmoveBlock.
  destruct (JS.startsWith "bestmove" l); [|lia].
  destruct (JS.split space l !! 1%nat); [|cbn; lia].
  destruct (evaluation _); cbn; lia.
Qed.

End SharedObject.

(** X23.  The promise is resolved with the very object the listener keeps
    updating: when a second best-move line is scanned in the same call,
    after a scored line and a first best-move line, the caller receives
    the move of the second line as [bestMove], and [cleanup()] has run
    twice. *)
Theorem second_bestmove_rewrites_resolved_move
    (fen : string) (depth : Z) (c : Parser.Closure) (data : string)
    (before after between post : list string) (scored line1 line2 : string)
    (kind : EvalType) (num token1 token2 : string) :
  JS.split Parser.newline (String.append (Parser.output c) data)
    = (before ++ scored :: after ++ [line1]) ++ between ++ line2 :: post ->
  Forall (fun l => Parser.isBestmoveLine l = false) before ->
  Parser.qualifies depth scored = true ->
  Regex.matchScore scored = Some (kind, num) ->
  Forall (fun l => Parser.isBestmoveLine l = false
                   /\ Parser.qualifies depth l = false) after ->
  Parser.isBestmoveLine line1 = true ->
  JS.split Parser.space line1 !! 1%nat = Some token1 ->
  Forall (fun l => Parser.isBestmoveLine l = false
                   /\ Parser.qualifies depth l = false) between ->
  Parser.isBestmoveLine line2 = true ->
  JS.split Parser.space line2 !! 1%nat = Some token2 ->
  Forall (fun l => Parser.isBestmoveLine l = false) post ->
  Parser.resolvedValue (Parser.onData fen depth c data).2
  = Some {| type := kind;
            value := if Parser.isBlackTurn fen then - JS.parseInt num
                     else JS.parseInt num;
            bestMove := JS.trim token2;
            pv := match Regex.matchPv scored with
                  | Some moves => JS.split Parser.space moves
                  | None => []
                  end |}
  /\ Parser.cleanups (Parser.onData fen depth c data).2 = 2%nat.
Proof.
  intros Hsplit Hbefore Hq Hscore Hafter Hbm1 Htok1 Hbetween Hbm2 Htok2
    Hpost.
  unfold Parser.onData. cbn [snd]. rewrite Hsplit.
  set (st0 := Parser.mkScan (Parser.running c) Parser.Unsettled 0 false).
  destruct (scan_to_first_bestmove fen depth st0 before after scored line1
              kind num token1 eq_refl eq_refl Hbefore Hq Hscore Hafter Hbm1
              Htok1) as (Ht & Hs & Hc & He).
  unfold Parser.scanLines in *. rewrite fold_left_app.
  set (st := fold_left (Parser.lineStep fen depth)
               (before ++ scored :: after ++ [line1]) st0) in *.
  rewrite fold_left_app. cbn [fold_left].
  fold (Parser.scanLines fen depth st between).
  rewrite (scanLines_quiet fen depth between st Hbetween).
  set (st' := Parser.lineStep fen depth st line2).
  assert (Hst' : Parser.threw st' = false
                 /\ Parser.settlement st' = Parser.SettledShared
                 /\ Parser.cleanups st' = 2%nat
                 /\ Parser.resolvedValue st'
                    = Some {| type := kind;
                              value := if Parser.isBlackTurn fen
                                       then - JS.parseInt num
                                       else JS.parseInt num;
                              bestMove := JS.trim token2;
                              pv := match Regex.matchPv scored with
                                    | Some moves =>
                                        JS.split Parser.space moves
                                    | None => []
                                    end |}).
  { subst st'. unfold Parser.lineStep. rewrite Ht.
    rewrite infoBlock_not_qualifying
      by (unfold Parser.qualifies; by rewrite (bestmove_not_info _ Hbm2)).
    unfold Parser.bestmoveBlock. unfold Parser.isBestmoveLine in Hbm2.
    rewrite Hbm2, Htok2, He. unfold Parser.resolvedValue. cbn.
    by rewrite Hs, Hc. }
  destruct Hst' as (Ht' & Hs' & Hc' & Hr').
  fold (Parser.scanLines fen depth st' post).
  split.
  - apply scanLines_resolved; [done|done|]. by rewrite Hs'.
  - pose proof (scanLines_cleanups fen depth post st') as Hle.
    assert (Hnone : length (filter (fun l => Parser.isBestmoveLine l = true)
                              post) = 0%nat).
    { clear -Hpost. induction Hpost as [|l post Hl _ IH]; [done|].
      rewrite filter_cons. by rewrite decide_False by congruence. }
    pose proof (scanLines_cleanups_mono fen depth post st') as Hge.
    lia.
Qed.

Lemma second_bestmove_rewrites_resolved_move_witness :
  Parser.resolvedValue
    (Parser.onData Samples.whiteToMove 12 Parser.freshClosure
       ("info depth 12 score cp 31 pv e2e4 e7e5" +:+ Samples.nl
        +:+ Samples.twoBestmoves)).2
  = Some {| type := cp; value := 31; bestMove := "d2d4";
            pv := ["e2e4"; "e7e5"] |}.
Proof.
  apply (second_bestmove_rewrites_resolved_move Samples.whiteToMove 12
           Parser.freshClosure
           ("info depth 12 score cp 31 pv e2e4 e7e5" +:+ Samples.nl
            +:+ Samples.twoBestmoves)
           [] [] [] [""] "info depth 12 score cp 31 pv e2e4 e7e5"
           "bestmove e2e4" "bestmove d2d4" cp "31" "e2e4" "d2d4").
  all: try reflexivity; repeat constructor.
Defined.
